(** * Application lifecycle of the TrabajaTecnico backend

    A shallow embedding of the three lifecycle routes of
    [backend/routes/applications.js] (POST /applications,
    PUT /applications/:id/status, PUT /applications/:id/withdraw), of the
    notification service they call ([services/notificationService.js]) and of
    the mailer ([services/emailService.js], [config/email.js]).

    The handlers are [async] functions that thread a database, a mail
    transport and the console through awaited calls, and that use
    [try]/[catch].  They are embedded in a small state-and-exception monad
    over a [World]: the relational store, the clock, the mail ledger, and two
    fault schedules that decide which call of [query] and which call of
    [transporter.sendMail] rejects.  Every call appends the events it causes
    to the run, so that attempts are observable even when they fail. *)

From Stdlib Require Import ZArith List String Bool Lia.
Import ListNotations.

Local Open Scope string_scope.
Local Open Scope Z_scope.

(* ===================================================================== *)
(** * Values of the JavaScript side                                       *)
(* ===================================================================== *)

(** The double-quote character of the message templates. *)
Definition dq : string := String (Ascii.ascii_of_nat 34) EmptyString.

(** Truthiness of an optional string ([undefined], [null] and the empty
    string are falsy). *)
Definition truthy (v : option string) : bool :=
  match v with
  | Some s => negb (s =? EmptyString)%string
  | None => false
  end.

(** [a || b] on optional strings. *)
Definition js_or (a b : option string) : option string :=
  if truthy a then a else b.

(** A body field as [express-validator] sees it once its format check has
    run: absent, present but rejected by the check of the chain, or present
    and accepted (with the accepted value). *)
Inductive field (A : Type) : Type :=
| Missing
| Malformed
| Wellformed (a : A).
Arguments Missing {A}.
Arguments Malformed {A}.
Arguments Wellformed {A} a.

Definition field_value {A} (f : field A) : option A :=
  match f with
  | Wellformed a => Some a
  | _ => None
  end.

(** [body(f).check()] : the value must be present and pass. *)
Definition required_ok {A} (f : field A) : bool :=
  match f with
  | Wellformed _ => true
  | _ => false
  end.

(** [body(f).optional().check()] : an absent value is skipped. *)
Definition optional_ok {A} (f : field A) : bool :=
  match f with
  | Malformed => false
  | _ => true
  end.

(** [isIn(values)] on a string. *)
Definition isIn (values : list string) (s : string) : bool :=
  existsb (String.eqb s) values.

(** ** Body values before any check

    [express.json()] hands the handlers whatever JSON the client sent: a body
    field may hold a string, but also a number, a boolean, [null], an array or
    an object, and the checks of a chain see that value as it is. *)

(** What [String(n)] gives for a number of a parsed body: a text that starts
    with a digit or a minus sign, or [Infinity] (a literal beyond the range of
    a double). *)
Definition is_number_text (s : string) : bool :=
  match s with
  | String c _ =>
      let n := Ascii.nat_of_ascii c in
      ((48 <=? n) && (n <=? 57) || (n =? 45) || (n =? 73))%nat
  | EmptyString => false
  end.

(** A number, by the text [String] gives for it. *)
Record NumberText := {
  nt_text : string;
  nt_ok : is_number_text nt_text = true
}.

#[warnings="-register-all"] Inductive JsonValue : Type :=
| JNull
| JBool (b : bool)
| JNumber (n : NumberText)
| JString (s : string)
| JArray (elements : list JsonValue)
| JObject (members : list (string * JsonValue)).

(** [String(value)]: a string is itself, an array is its elements joined by
    commas ([null] elements counting as empty), an object is
    [[object Object]]. *)
Fixpoint js_String (value : JsonValue) : string :=
  match value with
  | JNull => "null"
  | JBool true => "true"
  | JBool false => "false"
  | JNumber n => nt_text n
  | JString s => s
  | JArray elements =>
      String.concat ","
        (map (fun e => match e with
                       | JNull => EmptyString
                       | _ => js_String e
                       end) elements)
  | JObject _ => "[object Object]"
  end.

(** [toString(value, false)] of express-validator: [null] reads as the empty
    string, an array or an object through its own [toString()], anything else
    through [String]. *)
Definition toString_shallow (value : JsonValue) : string :=
  match value with
  | JNull => EmptyString
  | _ => js_String value
  end.

(** [toString(value)] of express-validator, the text a standard validator is
    given: a non-empty array reads as its first element, an absent value
    ([None]) as the empty string. *)
Definition toString (value : option JsonValue) : string :=
  match value with
  | None => EmptyString
  | Some (JArray (first :: _)) => toString_shallow first
  | Some v => toString_shallow v
  end.

(** The values a standard validator of express-validator is run on: the
    elements of the field when it holds an array, and the field itself
    otherwise
    ([const values = Array.isArray(value) ? value : [value]]). *)
Definition validated_values (value : option JsonValue)
  : list (option JsonValue) :=
  match value with
  | Some (JArray elements) => map Some elements
  | _ => [value]
  end.

(** [body(f).isIn(values).withMessage(msg)] on a field: one error for each
    validated value whose text is not among [values]. *)
Definition check_isIn (values : list string) (msg : string)
  (value : option JsonValue) : list string :=
  flat_map (fun v => if isIn values (toString v) then [] else [msg])
    (validated_values value).

(** [req.user], as [authenticateToken] fills it from the users table. *)
Record ReqUser := {
  userId : Z;
  userType : string
}.

(* ===================================================================== *)
(** * The relational store                                                *)
(* ===================================================================== *)

Record User := {
  u_id : Z;
  u_full_name : string;
  u_email : string
}.

Record TechnicianProfile := {
  tp_user_id : Z;
  tp_cv_uploaded : bool;
  tp_cv_file : option string
}.

Record CompanyProfile := {
  cp_user_id : Z;
  cp_company_name : string
}.

Record Project := {
  p_id : Z;
  p_title : string;
  p_company_id : Z;
  p_status : string
}.

Record Application := {
  pa_id : Z;
  pa_project_id : Z;
  pa_technician_id : Z;
  pa_cover_letter : string;
  pa_proposed_rate : option string;
  pa_availability_start : option string;
  pa_availability_end : option string;
  pa_status : string;
  pa_updated_at : Z
}.

Record Notification := {
  n_id : Z;
  n_user_id : Z;
  n_type : string;
  n_title : string;
  n_message : string;
  n_related_id : option Z;
  n_is_read : bool
}.

(** Tables are lists of rows in storage order; the two AUTO_INCREMENT
    counters belong to the tables they number. *)
Record Store := {
  users : list User;
  technician_profiles : list TechnicianProfile;
  company_profiles : list CompanyProfile;
  projects : list Project;
  project_applications : list Application;
  next_application_id : Z;
  notifications : list Notification;
  next_notification_id : Z
}.

(** ** Result rows of the SELECT statements *)

(** [SELECT p.title, p.company_id, cp.company_name ...] *)
Record ProjectInfo := {
  pi_title : string;
  pi_company_id : Z;
  pi_company_name : string
}.

(** [SELECT u.full_name, u.email, tp.cv_file ...] *)
Record TechnicianInfo := {
  ti_full_name : string;
  ti_email : string;
  ti_cv_file : option string
}.

(** [SELECT pa.*, p.title, p.company_id, u.full_name as technician_name,
    u.email as technician_email ...] *)
Record StatusRow := {
  sr_app : Application;
  sr_title : string;
  sr_company_id : Z;
  sr_technician_name : string;
  sr_technician_email : string
}.

(** [SELECT pa.*, p.title ...] *)
Record WithdrawRow := {
  wr_app : Application;
  wr_title : string
}.

(** ** The statements the three routes and the notification service issue *)

Inductive Stmt : Type :=
| SelCvUploaded (user_id : Z)
| SelOpenProject (id : Z)
| SelExistingApplication (project_id technician_id : Z)
| InsApplication (project_id technician_id : Z) (cover_letter : string)
    (proposed_rate availability_start availability_end : option string)
| SelProjectInfo (id : Z)
| SelTechnicianInfo (id : Z)
| InsNotification (user_id : Z) (type title message : string)
    (related_id : option Z)
| SelApplicationForStatus (id : Z)
| UpdStatus (status : string) (id : Z)
| SelOwnApplication (id technician_id : Z)
| UpdWithdrawn (id : Z).

(** What [query] resolves to for each statement: the rows of a SELECT, the
    [insertId] of an INSERT, nothing of interest for an UPDATE. *)
Definition result_of (s : Stmt) : Type :=
  match s with
  | SelCvUploaded _ => list bool
  | SelOpenProject _ => list Project
  | SelExistingApplication _ _ => list Z
  | InsApplication _ _ _ _ _ _ => Z
  | SelProjectInfo _ => list ProjectInfo
  | SelTechnicianInfo _ => list TechnicianInfo
  | InsNotification _ _ _ _ _ => Z
  | SelApplicationForStatus _ => list StatusRow
  | UpdStatus _ _ => unit
  | SelOwnApplication _ _ => list WithdrawRow
  | UpdWithdrawn _ => unit
  end.

Definition is_write (s : Stmt) : bool :=
  match s with
  | InsApplication _ _ _ _ _ _ | InsNotification _ _ _ _ _
  | UpdStatus _ _ | UpdWithdrawn _ => true
  | _ => false
  end.

Definition set_applications (st : Store) (apps : list Application) (next : Z)
  : Store :=
  {| users := users st;
     technician_profiles := technician_profiles st;
     company_profiles := company_profiles st;
     projects := projects st;
     project_applications := apps;
     next_application_id := next;
     notifications := notifications st;
     next_notification_id := next_notification_id st |}.

Definition set_notifications (st : Store) (ns : list Notification) (next : Z)
  : Store :=
  {| users := users st;
     technician_profiles := technician_profiles st;
     company_profiles := company_profiles st;
     projects := projects st;
     project_applications := project_applications st;
     next_application_id := next_application_id st;
     notifications := ns;
     next_notification_id := next |}.

(** [SET status = ?, updated_at = CURRENT_TIMESTAMP WHERE id = ?] *)
Definition update_status (now : Z) (status : string) (id : Z)
  (a : Application) : Application :=
  if pa_id a =? id then
    {| pa_id := pa_id a;
       pa_project_id := pa_project_id a;
       pa_technician_id := pa_technician_id a;
       pa_cover_letter := pa_cover_letter a;
       pa_proposed_rate := pa_proposed_rate a;
       pa_availability_start := pa_availability_start a;
       pa_availability_end := pa_availability_end a;
       pa_status := status;
       pa_updated_at := now |}
  else a.

(** The rows of [project_applications pa JOIN projects p ON pa.project_id =
    p.id JOIN users u ON pa.technician_id = u.id WHERE pa.id = ?]. *)
Definition status_rows (st : Store) (id : Z) : list StatusRow :=
  flat_map (fun a =>
    flat_map (fun p =>
      map (fun u =>
        {| sr_app := a; sr_title := p_title p; sr_company_id := p_company_id p;
           sr_technician_name := u_full_name u;
           sr_technician_email := u_email u |})
        (filter (fun u => u_id u =? pa_technician_id a) (users st)))
      (filter (fun p => p_id p =? pa_project_id a) (projects st)))
    (filter (fun a => pa_id a =? id) (project_applications st)).

(** The rows of [project_applications pa JOIN projects p ON pa.project_id =
    p.id WHERE pa.id = ? AND pa.technician_id = ?]. *)
Definition own_rows (st : Store) (id technician_id : Z) : list WithdrawRow :=
  flat_map (fun a =>
    map (fun p => {| wr_app := a; wr_title := p_title p |})
      (filter (fun p => p_id p =? pa_project_id a) (projects st)))
    (filter (fun a => (pa_id a =? id) && (pa_technician_id a =? technician_id))
       (project_applications st)).

(** [projects p JOIN company_profiles cp ON p.company_id = cp.user_id
    WHERE p.id = ?]. *)
Definition project_info_rows (st : Store) (id : Z) : list ProjectInfo :=
  flat_map (fun p =>
    map (fun cp =>
      {| pi_title := p_title p; pi_company_id := p_company_id p;
         pi_company_name := cp_company_name cp |})
      (filter (fun cp => cp_user_id cp =? p_company_id p)
         (company_profiles st)))
    (filter (fun p => p_id p =? id) (projects st)).

(** [users u LEFT JOIN technician_profiles tp ON u.id = tp.user_id
    WHERE u.id = ?]: a user without profile still yields one row, with a
    NULL [cv_file]. *)
Definition technician_info_rows (st : Store) (id : Z) : list TechnicianInfo :=
  flat_map (fun u =>
    match filter (fun tp => tp_user_id tp =? u_id u) (technician_profiles st)
    with
    | [] => [ {| ti_full_name := u_full_name u; ti_email := u_email u;
                 ti_cv_file := None |} ]
    | tps => map (fun tp =>
               {| ti_full_name := u_full_name u; ti_email := u_email u;
                  ti_cv_file := tp_cv_file tp |}) tps
    end)
    (filter (fun u => u_id u =? id) (users st)).

(** Modelled from the spec: the schema is not among the sources, so the
    column defaults follow the data model of the specification (a new
    application starts in status [pending], a new notification is unread).
    The statements are those of the sources; [exec] gives the effect of one of
    them on the store, at database time [now]. *)
Definition exec (now : Z) (s : Stmt) (st : Store) : result_of s * Store :=
  match s return result_of s * Store with
  | SelCvUploaded user_id =>
      (map tp_cv_uploaded
         (filter (fun tp => tp_user_id tp =? user_id) (technician_profiles st)),
       st)
  | SelOpenProject id =>
      (filter (fun p => (p_id p =? id) && (p_status p =? "open")%string)
         (projects st),
       st)
  | SelExistingApplication project_id technician_id =>
      (map pa_id
         (filter (fun a => (pa_project_id a =? project_id)
                           && (pa_technician_id a =? technician_id))
            (project_applications st)),
       st)
  | InsApplication project_id technician_id cover_letter proposed_rate
      availability_start availability_end =>
      let id := next_application_id st in
      (id,
       set_applications st
         (project_applications st ++
          [ {| pa_id := id;
               pa_project_id := project_id;
               pa_technician_id := technician_id;
               pa_cover_letter := cover_letter;
               pa_proposed_rate := proposed_rate;
               pa_availability_start := availability_start;
               pa_availability_end := availability_end;
               pa_status := "pending";
               pa_updated_at := now |} ])
         (id + 1))
  | SelProjectInfo id => (project_info_rows st id, st)
  | SelTechnicianInfo id => (technician_info_rows st id, st)
  | InsNotification user_id type title message related_id =>
      let id := next_notification_id st in
      (id,
       set_notifications st
         (notifications st ++
          [ {| n_id := id; n_user_id := user_id; n_type := type;
               n_title := title; n_message := message;
               n_related_id := related_id; n_is_read := false |} ])
         (id + 1))
  | SelApplicationForStatus id => (status_rows st id, st)
  | UpdStatus status id =>
      (tt,
       set_applications st
         (map (update_status now status id) (project_applications st))
         (next_application_id st))
  | SelOwnApplication id technician_id => (own_rows st id technician_id, st)
  | UpdWithdrawn id =>
      (tt,
       set_applications st
         (map (update_status now "withdrawn" id) (project_applications st))
         (next_application_id st))
  end.

(* ===================================================================== *)
(** * Effects: the world, runs, and the monad of the async functions      *)
(* ===================================================================== *)

(** [path.join(base, rel)], kept as the pair it was built from. *)
Inductive FilePath : Type :=
| path_join (base rel : string).

(** The fields of [mailOptions] that identify a message.  The HTML body and
    the display name of the attachment are rendered from the same inputs and
    are not represented. *)
Record MailOptions := {
  mail_from : option string;
  mail_to : string;
  mail_subject : string;
  mail_attachments : list FilePath
}.

Inductive JsError : Type :=
| DbError (s : Stmt)
| SmtpError (m : MailOptions)
| TypeError (msg : string)
| ReferenceError (msg : string).

(** [error.message].  The text a driver or transport error carries is not
    fixed by the program; one text per kind stands for it. *)
Definition error_message (e : JsError) : string :=
  match e with
  | DbError _ => "query failed"
  | SmtpError _ => "sendMail failed"
  | TypeError msg => msg
  | ReferenceError msg => msg
  end.

(** What a run does that an observer outside the process can see: each call
    of [query] (whether or not the driver then rejects it), each call of
    [transporter.sendMail] (likewise), and each console line. *)
Inductive Event : Type :=
| EvQuery (s : Stmt)
| EvSendMail (m : MailOptions)
| EvConsole (level text : string).

(** [db_faults] and [smtp_faults] decide the calls of [query] and of
    [transporter.sendMail] in order: [true] makes the call reject; a schedule
    that has run out lets every later call through.  [outbox] is the ledger
    of messages the transport accepted. *)
Record World := {
  db : Store;
  clock : Z;
  db_faults : list bool;
  smtp_faults : list bool;
  outbox : list MailOptions
}.

Inductive Outcome (A : Type) : Type :=
| Ret (a : A)
| Throw (e : JsError).
Arguments Ret {A} a.
Arguments Throw {A} e.

Record Run (A : Type) := {
  out : Outcome A;
  post : World;
  evs : list Event
}.
Arguments out {A} r.
Arguments post {A} r.
Arguments evs {A} r.

Definition M (A : Type) : Type := World -> Run A.

Definition ret {A} (a : A) : M A :=
  fun w => {| out := Ret a; post := w; evs := [] |}.

Definition throw {A} (e : JsError) : M A :=
  fun w => {| out := Throw e; post := w; evs := [] |}.

Definition bind {A B} (c : M A) (k : A -> M B) : M B :=
  fun w =>
    match c w with
    | {| out := Ret a; post := w1; evs := es1 |} =>
        match k a w1 with
        | {| out := o; post := w2; evs := es2 |} =>
            {| out := o; post := w2; evs := es1 ++ es2 |}
        end
    | {| out := Throw e; post := w1; evs := es1 |} =>
        {| out := Throw e; post := w1; evs := es1 |}
    end.

(** [try { c } catch (error) { h error }]: what [c] did before it threw
    stays done. *)
Definition try_catch {A} (c : M A) (h : JsError -> M A) : M A :=
  fun w =>
    match c w with
    | {| out := Ret a; post := w1; evs := es1 |} =>
        {| out := Ret a; post := w1; evs := es1 |}
    | {| out := Throw e; post := w1; evs := es1 |} =>
        match h e w1 with
        | {| out := o; post := w2; evs := es2 |} =>
            {| out := o; post := w2; evs := es1 ++ es2 |}
        end
    end.

Declare Scope js_scope.
Delimit Scope js_scope with js.
Notation "x <- c ;; k" := (bind c (fun x => k))
  (at level 61, c at next level, right associativity) : js_scope.
Notation "c ;; k" := (bind c (fun _ => k))
  (at level 61, right associativity) : js_scope.
Local Open Scope js_scope.

Definition console (level text : string) : M unit :=
  fun w => {| out := Ret tt; post := w; evs := [EvConsole level text] |}.

(** Modelled from the spec: [config/database.js], which exports [query], is
    not among the sources.  It is the persistence gateway: it executes a
    parameterized statement against the relational store and resolves to its
    rows, or rejects on a connectivity or constraint failure. *)
Definition query (s : Stmt) : M (result_of s) :=
  fun w =>
    match db_faults w with
    | true :: rest =>
        {| out := Throw (DbError s);
           post := {| db := db w; clock := clock w; db_faults := rest;
                      smtp_faults := smtp_faults w; outbox := outbox w |};
           evs := [EvQuery s] |}
    | l =>
        let r := exec (clock w) s (db w) in
        {| out := Ret (fst r);
           post := {| db := snd r; clock := clock w; db_faults := tl l;
                      smtp_faults := smtp_faults w; outbox := outbox w |};
           evs := [EvQuery s] |}
    end.

(** [transporter.sendMail(mailOptions)], resolving to [info.messageId]. *)
Definition sendMail (m : MailOptions) : M Z :=
  fun w =>
    match smtp_faults w with
    | true :: rest =>
        {| out := Throw (SmtpError m);
           post := {| db := db w; clock := clock w; db_faults := db_faults w;
                      smtp_faults := rest; outbox := outbox w |};
           evs := [EvSendMail m] |}
    | l =>
        {| out := Ret (Z.of_nat (List.length (outbox w)));
           post := {| db := db w; clock := clock w; db_faults := db_faults w;
                      smtp_faults := tl l; outbox := outbox w ++ [m] |};
           evs := [EvSendMail m] |}
    end.

(** The statements, the writes among them, and the transport contacts of a
    run. *)
Definition queries_of (es : list Event) : list Stmt :=
  flat_map (fun e => match e with EvQuery s => [s] | _ => [] end) es.

Definition writes_of (es : list Event) : list Stmt :=
  filter is_write (queries_of es).

Definition mails_of (es : list Event) : list MailOptions :=
  flat_map (fun e => match e with EvSendMail m => [m] | _ => [] end) es.

Definition notification_inserts_of (es : list Event) : list Stmt :=
  filter (fun s => match s with InsNotification _ _ _ _ _ => true
                   | _ => false end) (queries_of es).

(* ===================================================================== *)
(** * config/email.js and services/emailService.js                        *)
(* ===================================================================== *)

(** [process.env] *)
Definition Env : Type := string -> option string.

Definition validateEmailConfig (env : Env) : bool :=
  let requiredFields := ["EMAIL_USER"; "EMAIL_PASS"] in
  let missingFields :=
    filter (fun field => negb (truthy (env field))) requiredFields in
  if (0 <? List.length missingFields)%nat then false else true.

(** [const isEmailConfigured = validateEmailConfig();] at module load. *)
Definition isEmailConfigured (env : Env) : bool := validateEmailConfig env.

Inductive SendResult : Type :=
| SendSuccess (messageId : Z)
| SendFailure (error : string).

Record applicationData := {
  technicianName : string;
  technicianEmail : string;
  projectTitle : string;
  companyName : string;
  ad_coverLetter : option string;
  ad_proposedRate : option string;
  cvFilePath : option FilePath
}.

Definition sendJobApplicationEmail (env : Env) (d : applicationData)
  : M SendResult :=
  if negb (isEmailConfigured env) then
    console "warn" "⚠️  Email no configurado. No se enviará el email de aplicación." ;;
    ret (SendFailure "Email no configurado")
  else
    try_catch
      (let mailOptions :=
         {| mail_from := js_or (env "EMAIL_FROM") (env "EMAIL_USER");
            mail_to := "hola.trabajatecnico@gmail.com";
            mail_subject := "Nueva Aplicación de Trabajo - " ++ projectTitle d;
            mail_attachments :=
              match cvFilePath d with
              | Some p => [p]
              | None => []
              end |} in
       info <- sendMail mailOptions ;;
       console "log" "Email de aplicación enviado:" ;;
       ret (SendSuccess info))
      (fun error =>
         console "error" "Error enviando email de aplicación:" ;;
         ret (SendFailure (error_message error))).

Definition sendApplicationConfirmationEmail (env : Env)
  (technicianEmail technicianName projectTitle : string) : M SendResult :=
  if negb (isEmailConfigured env) then
    console "warn" "⚠️  Email no configurado. No se enviará el email de confirmación." ;;
    ret (SendFailure "Email no configurado")
  else
    try_catch
      (let mailOptions :=
         {| mail_from := js_or (env "EMAIL_FROM") (env "EMAIL_USER");
            mail_to := technicianEmail;
            mail_subject := "Confirmación de Aplicación - " ++ projectTitle;
            mail_attachments := [] |} in
       info <- sendMail mailOptions ;;
       console "log" "Email de confirmación enviado:" ;;
       ret (SendSuccess info))
      (fun error =>
         console "error" "Error enviando email de confirmación:" ;;
         ret (SendFailure (error_message error))).

(* ===================================================================== *)
(** * services/notificationService.js                                     *)
(* ===================================================================== *)

Inductive NotificationResult : Type :=
| NotificationSuccess (notificationId : Z)
| NotificationFailure (error : string).

Definition createNotification (userId : Z) (type title message : string)
  (relatedId : option Z) : M NotificationResult :=
  try_catch
    (result <- query (InsNotification userId type title message relatedId) ;;
     ret (NotificationSuccess result))
    (fun error =>
       console "error" "Error creando notificación:" ;;
       ret (NotificationFailure (error_message error))).

Definition createJobApplicationNotification (technicianId projectId : Z)
  (projectTitle : string) : M NotificationResult :=
  let title := "Aplicación Enviada" in
  let message :=
    "Tu aplicación para el proyecto " ++ dq ++ projectTitle ++ dq
    ++ " ha sido enviada exitosamente." in
  createNotification technicianId "job_application" title message
    (Some projectId).

Definition createNewApplicationNotification (companyId projectId : Z)
  (projectTitle technicianName : string) : M NotificationResult :=
  let title := "Nueva Aplicación Recibida" in
  let message :=
    "Has recibido una nueva aplicación de " ++ technicianName
    ++ " para el proyecto " ++ dq ++ projectTitle ++ dq ++ "." in
  createNotification companyId "new_application" title message
    (Some projectId).

(** The [switch (status)] of [createApplicationStatusNotification]. *)
Definition status_title (status : string) : string :=
  if (status =? "accepted")%string then "¡Aplicación Aceptada!"
  else if (status =? "rejected")%string then "Aplicación Rechazada"
  else if (status =? "withdrawn")%string then "Aplicación Retirada"
  else "Estado de Aplicación Actualizado".

Definition status_message (status projectTitle : string) : string :=
  if (status =? "accepted")%string then
    "Tu aplicación para el proyecto " ++ dq ++ projectTitle ++ dq
    ++ " ha sido aceptada. ¡Felicidades!"
  else if (status =? "rejected")%string then
    "Tu aplicación para el proyecto " ++ dq ++ projectTitle ++ dq
    ++ " no ha sido seleccionada en esta ocasión."
  else if (status =? "withdrawn")%string then
    "Has retirado tu aplicación para el proyecto " ++ dq ++ projectTitle
    ++ dq ++ "."
  else
    "El estado de tu aplicación para el proyecto " ++ dq ++ projectTitle
    ++ dq ++ " ha sido actualizado.".

Definition createApplicationStatusNotification (technicianId projectId : Z)
  (projectTitle status : string) : M NotificationResult :=
  let title := status_title status in
  let message := status_message status projectTitle in
  createNotification technicianId "application_status" title message
    (Some projectId).

(* ===================================================================== *)
(** * backend/routes/applications.js                                      *)
(* ===================================================================== *)

(** The body of a response, by shape: [{error, message}],
    [{error, details}], [{message, applicationId}], [{message, status}],
    [{message}]. *)
Inductive Json : Type :=
| JError (error message : string)
| JInvalid (error : string) (details : list string)
| JCreated (message : string) (applicationId : Z)
| JStatus (message status : string)
| JMessage (message : string).

(** [res.status(code).json(body)] *)
Record Response := {
  code : Z;
  json : Json
}.

(** The names bound at the top level of the module: its [require]s and
    [router].  [createApplicationStatusNotification] is not among them: line 6
    destructures only the two other constructors of the notification
    service. *)
Definition module_scope : list string :=
  ["express"; "body"; "validationResult"; "query"; "authenticateToken";
   "sendJobApplicationEmail"; "sendApplicationConfirmationEmail";
   "createJobApplicationNotification"; "createNewApplicationNotification";
   "path"; "router"].

(** A call [name(...)] where [scope] is in force: an identifier that resolves
    nowhere throws before the call takes place. *)
Definition call {A} (scope : list string) (name : string) (f : M A) : M A :=
  if existsb (String.eqb name) scope then f
  else throw (ReferenceError (name ++ " is not defined")).

Definition isEmpty {A} (l : list A) : bool :=
  match l with
  | [] => true
  | _ => false
  end.

(** ** PUT /:id/status *)

(** [req.user], [req.params.id] and the two body fields, for a body whose
    [status] is a JSON string.  [RawStatusReq] below is the request with any
    body, and [put_status_route] the route on it; on a string status the two
    agree ([put_status_route_on_string]). *)
Record StatusReq := {
  sq_user : ReqUser;
  sq_id : Z;
  status : string;
  message : field string
}.

(** [body('status').isIn([...])], [body('message').optional().isString()],
    on a string status: the check is run on that one string. *)
Definition status_validationResult (req : StatusReq) : list string :=
  (if isIn ["pending"; "accepted"; "rejected"; "withdrawn"] (status req)
   then [] else ["Estado inválido"])
  ++ (if optional_ok (message req) then [] else ["Mensaje inválido"]).

Definition put_status (req : StatusReq) : M Response :=
  try_catch
    (let errors := status_validationResult req in
     if negb (isEmpty errors) then
       ret {| code := 400; json := JInvalid "Datos inválidos" errors |}
     else
       let id := sq_id req in
       let status := status req in
       rows <- query (SelApplicationForStatus id) ;;
       match rows with
       | [] =>
           ret {| code := 404;
                  json := JError "Aplicación no encontrada"
                            "La aplicación no existe" |}
       | application :: _ =>
           if negb (userType (sq_user req) =? "company")%string
              || negb (sr_company_id application =? userId (sq_user req))
           then
             ret {| code := 403;
                    json := JError "Acceso denegado"
                              "No tienes permisos para cambiar el estado de esta aplicación" |}
           else
             query (UpdStatus status id) ;;
             call ("createApplicationStatusNotification" :: module_scope)
               "createApplicationStatusNotification"
               (createApplicationStatusNotification
                  (pa_technician_id (sr_app application))
                  (pa_project_id (sr_app application))
                  (sr_title application)
                  status) ;;
             ret {| code := 200;
                    json := JStatus
                              "Estado de aplicación actualizado exitosamente"
                              status |}
       end)
    (fun error =>
       console "error" "Error actualizando estado de aplicación:" ;;
       ret {| code := 500;
              json := JError "Error interno del servidor"
                        "Error al actualizar el estado de la aplicación" |}).

(** *** The same route on any body *)

(** [req.user], [req.params.id], [req.body.status] as the client sent it
    ([None] when the body has no such field) and [req.body.message]. *)
Record RawStatusReq := {
  rq_user : ReqUser;
  rq_id : Z;
  rq_status : option JsonValue;
  rq_message : field string
}.

Definition status_values : list string :=
  ["pending"; "accepted"; "rejected"; "withdrawn"].

(** [body('status').isIn([...])], [body('message').optional().isString()] *)
Definition raw_status_validationResult (req : RawStatusReq) : list string :=
  check_isIn status_values "Estado inválido" (rq_status req)
  ++ (if optional_ok (rq_message req) then [] else ["Mensaje inválido"]).

(** What the route answers: one of the responses of [put_status], or
    [{message, status}] echoing a status that is not a string. *)
Inductive StatusReply : Type :=
| Plain (response : Response)
| Echo (message : string) (status : option JsonValue).

(** The [default] branch of the [switch (status)] of
    [createApplicationStatusNotification]: the cases compare with [===], so a
    status that is not a string matches none of them. *)
Definition createApplicationStatusNotification_default
  (technicianId projectId : Z) (projectTitle : string)
  : M NotificationResult :=
  createNotification technicianId "application_status"
    "Estado de Aplicación Actualizado"
    ("El estado de tu aplicación para el proyecto " ++ dq ++ projectTitle
     ++ dq ++ " ha sido actualizado.")
    (Some projectId).

(** The handler of PUT /:id/status on any body.  How the UPDATE binds a
    status that is not a string to its placeholder is decided by the database
    driver behind [config/database.js], which is not among the sources: that
    one call is the parameter [update_other]. *)
Definition put_status_route
  (update_other : option JsonValue -> Z -> M unit) (req : RawStatusReq)
  : M StatusReply :=
  try_catch
    (let errors := raw_status_validationResult req in
     if negb (isEmpty errors) then
       ret (Plain {| code := 400; json := JInvalid "Datos inválidos" errors |})
     else
       let id := rq_id req in
       rows <- query (SelApplicationForStatus id) ;;
       match rows with
       | [] =>
           ret (Plain {| code := 404;
                         json := JError "Aplicación no encontrada"
                                   "La aplicación no existe" |})
       | application :: _ =>
           if negb (userType (rq_user req) =? "company")%string
              || negb (sr_company_id application =? userId (rq_user req))
           then
             ret (Plain {| code := 403;
                           json := JError "Acceso denegado"
                                     "No tienes permisos para cambiar el estado de esta aplicación" |})
           else
             match rq_status req with
             | Some (JString status) =>
                 query (UpdStatus status id) ;;
                 call ("createApplicationStatusNotification" :: module_scope)
                   "createApplicationStatusNotification"
                   (createApplicationStatusNotification
                      (pa_technician_id (sr_app application))
                      (pa_project_id (sr_app application))
                      (sr_title application)
                      status) ;;
                 ret (Plain {| code := 200;
                               json := JStatus
                                         "Estado de aplicación actualizado exitosamente"
                                         status |})
             | other =>
                 update_other other id ;;
                 call ("createApplicationStatusNotification" :: module_scope)
                   "createApplicationStatusNotification"
                   (createApplicationStatusNotification_default
                      (pa_technician_id (sr_app application))
                      (pa_project_id (sr_app application))
                      (sr_title application)) ;;
                 ret (Echo "Estado de aplicación actualizado exitosamente"
                        other)
             end
       end)
    (fun error =>
       console "error" "Error actualizando estado de aplicación:" ;;
       ret (Plain {| code := 500;
                     json := JError "Error interno del servidor"
                               "Error al actualizar el estado de la aplicación" |})).

(** A request with a string status, as a request with any body. *)
Definition raw_of (req : StatusReq) : RawStatusReq :=
  {| rq_user := sq_user req; rq_id := sq_id req;
     rq_status := Some (JString (status req)); rq_message := message req |}.

(** A run of [put_status], read as a run of the route on any body. *)
Definition as_reply (r : Run Response) : Run StatusReply :=
  {| out := match out r with
            | Ret response => Ret (Plain response)
            | Throw e => Throw e
            end;
     post := post r; evs := evs r |}.

(** The statuses the validator lets through: one of the four strings, or an
    array each of whose elements reads as one of them (the array with no
    element among them). *)
Definition status_accepted (value : option JsonValue) : Prop :=
  (exists s, value = Some (JString s) /\ In s status_values)
  \/ (exists elements,
         value = Some (JArray elements)
         /\ Forall (fun e => In (toString (Some e)) status_values) elements).

(** ** PUT /:id/withdraw *)

Record WithdrawReq := {
  wq_user : ReqUser;
  wq_id : Z
}.

Definition put_withdraw (req : WithdrawReq) : M Response :=
  try_catch
    (let id := wq_id req in
     rows <- query (SelOwnApplication id (userId (wq_user req))) ;;
     match rows with
     | [] =>
         ret {| code := 404;
                json := JError "Aplicación no encontrada"
                          "La aplicación no existe o no tienes permisos para modificarla" |}
     | application :: _ =>
         if negb (userType (wq_user req) =? "technician")%string then
           ret {| code := 403;
                  json := JError "Acceso denegado"
                            "Solo los técnicos pueden retirar aplicaciones" |}
         else if negb (pa_status (wr_app application) =? "pending")%string then
           ret {| code := 400;
                  json := JError "Estado inválido"
                            "Solo se pueden retirar aplicaciones pendientes" |}
         else
           query (UpdWithdrawn id) ;;
           call module_scope "createApplicationStatusNotification"
             (createApplicationStatusNotification
                (userId (wq_user req))
                (pa_project_id (wr_app application))
                (wr_title application)
                "withdrawn") ;;
           ret {| code := 200;
                  json := JMessage "Aplicación retirada exitosamente" |}
     end)
    (fun error =>
       console "error" "Error retirando aplicación:" ;;
       ret {| code := 500;
              json := JError "Error interno del servidor"
                        "Error al retirar la aplicación" |}).

(** ** POST / *)

Record ApplyBody := {
  projectId : field Z;
  coverLetter : option string;
  proposedRate : field string;
  availabilityStart : field string;
  availabilityEnd : field string
}.

Record ApplyReq := {
  aq_user : ReqUser;
  aq_body : ApplyBody
}.

(** [isInt], [notEmpty], and the three optional [isFloat], [isDate],
    [isDate] chains. *)
Definition apply_validationResult (req : ApplyReq) : list string :=
  let b := aq_body req in
  (if required_ok (projectId b) then [] else ["ID de proyecto inválido"])
  ++ (if truthy (coverLetter b) then []
      else ["Carta de presentación requerida"])
  ++ (if optional_ok (proposedRate b) then []
      else ["Tarifa propuesta inválida"])
  ++ (if optional_ok (availabilityStart b) then []
      else ["Fecha de inicio inválida"])
  ++ (if optional_ok (availabilityEnd b) then []
      else ["Fecha de fin inválida"]).

(** The project id the statements receive.  Past the validation check the
    field is well formed (lemma [valid_projectId]); the default is never
    read. *)
Definition projectId_param (b : ApplyBody) : Z :=
  match projectId b with
  | Wellformed z => z
  | _ => 0
  end.

Definition undefined_property {A} (prop : string) : M A :=
  throw (TypeError
    ("Cannot read properties of undefined (reading '" ++ prop ++ "')")).

Definition post_applications (env : Env) (req : ApplyReq) : M Response :=
  try_catch
    (let errors := apply_validationResult req in
     if negb (isEmpty errors) then
       ret {| code := 400; json := JInvalid "Datos inválidos" errors |}
     else
       let projectId := projectId_param (aq_body req) in
       let coverLetter := coverLetter (aq_body req) in
       let proposedRate := field_value (proposedRate (aq_body req)) in
       let availabilityStart := field_value (availabilityStart (aq_body req)) in
       let availabilityEnd := field_value (availabilityEnd (aq_body req)) in
       let user := aq_user req in
       if negb (userType user =? "technician")%string then
         ret {| code := 403;
                json := JError "Acceso denegado"
                          "Solo los técnicos pueden aplicar a proyectos" |}
       else
         technicianProfile <- query (SelCvUploaded (userId user)) ;;
         if (List.length technicianProfile =? 0)%nat
            || negb (hd false technicianProfile)
         then
           ret {| code := 400;
                  json := JError "CV requerido"
                            "Debes subir tu CV antes de poder aplicar a proyectos" |}
         else
           project <- query (SelOpenProject projectId) ;;
           if (List.length project =? 0)%nat then
             ret {| code := 404;
                    json := JError "Proyecto no encontrado"
                              "El proyecto no existe o no está disponible" |}
           else
             existingApplication <-
               query (SelExistingApplication projectId (userId user)) ;;
             if (0 <? List.length existingApplication)%nat then
               ret {| code := 400;
                      json := JError "Ya aplicaste"
                                "Ya has aplicado a este proyecto" |}
             else
               result <-
                 query (InsApplication projectId (userId user)
                          (match coverLetter with Some s => s
                           | None => EmptyString end)
                          proposedRate availabilityStart availabilityEnd) ;;
               projectRows <- query (SelProjectInfo projectId) ;;
               technicianRows <- query (SelTechnicianInfo (userId user)) ;;
               call module_scope "createJobApplicationNotification"
                 (match projectRows with
                  | [] => undefined_property "title"
                  | projectInfo :: _ =>
                      createJobApplicationNotification (userId user)
                        projectId (pi_title projectInfo)
                  end) ;;
               match projectRows, technicianRows with
               | [], _ => undefined_property "company_id"
               | _ :: _, [] => undefined_property "full_name"
               | projectInfo :: _, technicianInfo :: _ =>
                   call module_scope "createNewApplicationNotification"
                     (createNewApplicationNotification
                        (pi_company_id projectInfo) projectId
                        (pi_title projectInfo)
                        (ti_full_name technicianInfo)) ;;
                   call module_scope "sendApplicationConfirmationEmail"
                     (sendApplicationConfirmationEmail env
                        (ti_email technicianInfo)
                        (ti_full_name technicianInfo)
                        (pi_title projectInfo)) ;;
                   let cvFilePath :=
                     if truthy (ti_cv_file technicianInfo) then
                       match ti_cv_file technicianInfo with
                       | Some cv_file =>
                           Some (path_join
                                   (match js_or (env "UPLOAD_PATH")
                                            (Some "./uploads") with
                                    | Some base => base
                                    | None => "./uploads"
                                    end)
                                   cv_file)
                       | None => None
                       end
                     else None in
                   call module_scope "sendJobApplicationEmail"
                     (sendJobApplicationEmail env
                        {| technicianName := ti_full_name technicianInfo;
                           technicianEmail := ti_email technicianInfo;
                           projectTitle := pi_title projectInfo;
                           companyName := pi_company_name projectInfo;
                           ad_coverLetter := coverLetter;
                           ad_proposedRate := proposedRate;
                           cvFilePath := cvFilePath |}) ;;
                   ret {| code := 201;
                          json := JCreated "Aplicación enviada exitosamente"
                                    result |}
               end)
    (fun error =>
       console "error" "Error aplicando a proyecto:" ;;
       ret {| code := 500;
              json := JError "Error interno del servidor"
                        "Error al aplicar al proyecto" |}).

(* ===================================================================== *)
(** * A sample world                                                      *)
(* ===================================================================== *)

Module Sample.

Definition ana : User :=
  {| u_id := 1; u_full_name := "Ana Quispe"; u_email := "ana@example.pe" |}.
Definition andes : User :=
  {| u_id := 2; u_full_name := "Andes Clima"; u_email := "rrhh@andes.pe" |}.
Definition beto : User :=
  {| u_id := 3; u_full_name := "Beto Rojas"; u_email := "beto@example.pe" |}.
Definition lima : User :=
  {| u_id := 4; u_full_name := "Lima Redes"; u_email := "info@lima.pe" |}.

Definition hvac : Project :=
  {| p_id := 10; p_title := "Instalacion HVAC"; p_company_id := 2;
     p_status := "open" |}.
Definition cableado : Project :=
  {| p_id := 11; p_title := "Cableado"; p_company_id := 2;
     p_status := "completed" |}.
Definition fibra : Project :=
  {| p_id := 12; p_title := "Fibra optica"; p_company_id := 4;
     p_status := "open" |}.

(** Ana's application to [hvac], in a given status. *)
Definition app100 (st : string) : Application :=
  {| pa_id := 100; pa_project_id := 10; pa_technician_id := 1;
     pa_cover_letter := "Experienced in HVAC installs and repair work";
     pa_proposed_rate := None; pa_availability_start := None;
     pa_availability_end := None; pa_status := st; pa_updated_at := 5 |}.

Definition store (st : string) : Store :=
  {| users := [ana; andes; beto; lima];
     technician_profiles :=
       [ {| tp_user_id := 1; tp_cv_uploaded := true;
            tp_cv_file := Some "cv_ana.pdf" |};
         {| tp_user_id := 3; tp_cv_uploaded := false;
            tp_cv_file := None |} ];
     company_profiles :=
       [ {| cp_user_id := 2; cp_company_name := "Andes Clima SAC" |};
         {| cp_user_id := 4; cp_company_name := "Lima Redes SRL" |} ];
     projects := [hvac; cableado; fibra];
     project_applications := [app100 st];
     next_application_id := 101;
     notifications := [];
     next_notification_id := 1 |}.

(** A world over [store st] with the given fault schedules. *)
Definition world (st : string) (dbf smtpf : list bool) : World :=
  {| db := store st; clock := 9; db_faults := dbf; smtp_faults := smtpf;
     outbox := [] |}.

Definition configured : Env :=
  fun name =>
    if (name =? "EMAIL_USER")%string then Some "hola.trabajatecnico@gmail.com"
    else if (name =? "EMAIL_PASS")%string then Some "secret"
    else None.

Definition unconfigured : Env := fun _ => None.

Definition technician (id : Z) : ReqUser :=
  {| userId := id; userType := "technician" |}.
Definition company (id : Z) : ReqUser :=
  {| userId := id; userType := "company" |}.

Definition apply_to (u : ReqUser) (pid : Z) : ApplyReq :=
  {| aq_user := u;
     aq_body :=
       {| projectId := Wellformed pid;
          coverLetter := Some "Experienced in HVAC installs and repair work";
          proposedRate := Missing;
          availabilityStart := Missing;
          availabilityEnd := Missing |} |}.

Definition set_status (u : ReqUser) (id : Z) (s : string) : StatusReq :=
  {| sq_user := u; sq_id := id; status := s; message := Missing |}.

Definition withdraw (u : ReqUser) (id : Z) : WithdrawReq :=
  {| wq_user := u; wq_id := id |}.

End Sample.

(* ===================================================================== *)
(** * Vocabulary of the theorems                                          *)
(* ===================================================================== *)

(** [answered n l]: the schedule [l] lets the first [n] calls through. *)
Fixpoint answered (n : nat) (l : list bool) : bool :=
  match n, l with
  | O, _ => true
  | S _, [] => true
  | S n', b :: t => negb b && answered n' t
  end.

(** The world after a call of [query] that the driver rejected, and after one
    it answered. *)
Definition reject_query (w : World) : World :=
  {| db := db w; clock := clock w; db_faults := tl (db_faults w);
     smtp_faults := smtp_faults w; outbox := outbox w |}.

Definition answer_query (s : Stmt) (w : World) : World :=
  {| db := snd (exec (clock w) s (db w)); clock := clock w;
     db_faults := tl (db_faults w);
     smtp_faults := smtp_faults w; outbox := outbox w |}.

(** Likewise for [transporter.sendMail]. *)
Definition reject_mail (w : World) : World :=
  {| db := db w; clock := clock w; db_faults := db_faults w;
     smtp_faults := tl (smtp_faults w); outbox := outbox w |}.

Definition deliver_mail (m : MailOptions) (w : World) : World :=
  {| db := db w; clock := clock w; db_faults := db_faults w;
     smtp_faults := tl (smtp_faults w); outbox := outbox w ++ [m] |}.

(** The same world under other fault schedules. *)
Definition with_faults (w : World) (dbf smtpf : list bool) : World :=
  {| db := db w; clock := clock w; db_faults := dbf;
     smtp_faults := smtpf; outbox := outbox w |}.

(** ** The store, in the words of the specification *)

(** The profile of a technician, if there is one. *)
Definition cv_profile (st : Store) (uid : Z) : option TechnicianProfile :=
  find (fun tp => tp_user_id tp =? uid) (technician_profiles st).

(** The technician has a profile with [cv_uploaded = true]. *)
Definition has_cv (st : Store) (uid : Z) : bool :=
  match cv_profile st uid with
  | Some tp => tp_cv_uploaded tp
  | None => false
  end.

(** The project with this id whose status is [open], if there is one. *)
Definition open_project (st : Store) (pid : Z) : option Project :=
  find (fun p => (p_id p =? pid) && (p_status p =? "open")%string)
    (projects st).

(** An application of this technician to this project exists. *)
Definition applied (st : Store) (pid uid : Z) : bool :=
  existsb (fun a => (pa_project_id a =? pid) && (pa_technician_id a =? uid))
    (project_applications st).

(** ** The responses of POST /, by the name the specification gives them *)

(** [Forbidden] *)
Definition forbidden_apply : Response :=
  {| code := 403;
     json := JError "Acceso denegado"
               "Solo los técnicos pueden aplicar a proyectos" |}.

(** [PreconditionFailed(cv_required)] *)
Definition cv_required : Response :=
  {| code := 400;
     json := JError "CV requerido"
               "Debes subir tu CV antes de poder aplicar a proyectos" |}.

(** [NotFound(project)] *)
Definition project_not_found : Response :=
  {| code := 404;
     json := JError "Proyecto no encontrado"
               "El proyecto no existe o no está disponible" |}.

(** [Conflict(already_applied)] *)
Definition already_applied : Response :=
  {| code := 400;
     json := JError "Ya aplicaste" "Ya has aplicado a este proyecto" |}.

Definition precondition_failures : list Response :=
  [forbidden_apply; cv_required; project_not_found; already_applied].

(** [201] with the new application id. *)
Definition created (applicationId : Z) : Response :=
  {| code := 201;
     json := JCreated "Aplicación enviada exitosamente" applicationId |}.

(** ** The responses of the two PUT routes *)

Definition invalid_status (details : list string) : Response :=
  {| code := 400; json := JInvalid "Datos inválidos" details |}.

Definition forbidden_status : Response :=
  {| code := 403;
     json := JError "Acceso denegado"
               "No tienes permisos para cambiar el estado de esta aplicación" |}.

Definition status_updated (s : string) : Response :=
  {| code := 200;
     json := JStatus "Estado de aplicación actualizado exitosamente" s |}.

Definition withdraw_not_found : Response :=
  {| code := 404;
     json := JError "Aplicación no encontrada"
               "La aplicación no existe o no tienes permisos para modificarla" |}.

Definition withdraw_forbidden : Response :=
  {| code := 403;
     json := JError "Acceso denegado"
               "Solo los técnicos pueden retirar aplicaciones" |}.

(** [InvalidState(not_pending)] *)
Definition not_pending : Response :=
  {| code := 400;
     json := JError "Estado inválido"
               "Solo se pueden retirar aplicaciones pendientes" |}.

Definition withdrawn_ok : Response :=
  {| code := 200; json := JMessage "Aplicación retirada exitosamente" |}.

Definition withdraw_internal_error : Response :=
  {| code := 500;
     json := JError "Error interno del servidor"
               "Error al retirar la aplicación" |}.

(** The mailer's answer when it is not configured. *)
Definition not_configured : SendResult := SendFailure "Email no configurado".

(** Mail credentials are absent: one of the two required variables is unset
    or empty. *)
Definition credentials_absent (env : Env) : Prop :=
  truthy (env "EMAIL_USER") = false \/ truthy (env "EMAIL_PASS") = false.

(** ** The two messages of the mailer *)

(** The notice to the operations mailbox. *)
Definition application_mail (env : Env) (d : applicationData) : MailOptions :=
  {| mail_from := js_or (env "EMAIL_FROM") (env "EMAIL_USER");
     mail_to := "hola.trabajatecnico@gmail.com";
     mail_subject := "Nueva Aplicación de Trabajo - " ++ projectTitle d;
     mail_attachments :=
       match cvFilePath d with
       | Some p => [p]
       | None => []
       end |}.

(** The confirmation to the applicant. *)
Definition confirmation_mail (env : Env) (technicianEmail projectTitle : string)
  : MailOptions :=
  {| mail_from := js_or (env "EMAIL_FROM") (env "EMAIL_USER");
     mail_to := technicianEmail;
     mail_subject := "Confirmación de Aplicación - " ++ projectTitle;
     mail_attachments := [] |}.

(** What every run of either send operation has in common: it returns a
    value, contacts the transport at most once, and touches nothing but the
    mail ledger and the mail schedule. *)
Definition mailer_post (w : World) (o : Outcome SendResult) (w' : World)
  (es : list Event) : Prop :=
  (exists res, o = Ret res)
  /\ db w' = db w /\ clock w' = clock w /\ db_faults w' = db_faults w
  /\ queries_of es = []
  /\ (List.length (mails_of es) <= 1)%nat.

(** ** A submission that passes every check *)

(** The request is valid, comes from a technician with an uploaded CV, names
    an open project the technician has not applied to, and the project's
    company profile and the technician's user row are there to be read
    back. *)
Definition submit_ready (req : ApplyReq) (st : Store) : Prop :=
  apply_validationResult req = []
  /\ userType (aq_user req) = "technician"
  /\ has_cv st (userId (aq_user req)) = true
  /\ open_project st (projectId_param (aq_body req)) <> None
  /\ applied st (projectId_param (aq_body req)) (userId (aq_user req)) = false
  /\ project_info_rows st (projectId_param (aq_body req)) <> []
  /\ technician_info_rows st (userId (aq_user req)) <> [].

(** The row the INSERT of a submission adds. *)
Definition new_application (req : ApplyReq) (w : World) : Application :=
  {| pa_id := next_application_id (db w);
     pa_project_id := projectId_param (aq_body req);
     pa_technician_id := userId (aq_user req);
     pa_cover_letter :=
       match coverLetter (aq_body req) with
       | Some s => s
       | None => EmptyString
       end;
     pa_proposed_rate := field_value (proposedRate (aq_body req));
     pa_availability_start := field_value (availabilityStart (aq_body req));
     pa_availability_end := field_value (availabilityEnd (aq_body req));
     pa_status := "pending";
     pa_updated_at := clock w |}.

(** The two notification writes of a submission. *)
Definition job_note (req : ApplyReq) (p : ProjectInfo) : Stmt :=
  InsNotification (userId (aq_user req)) "job_application"
    "Aplicación Enviada"
    ("Tu aplicación para el proyecto " ++ dq ++ pi_title p ++ dq
     ++ " ha sido enviada exitosamente.")
    (Some (projectId_param (aq_body req))).

Definition company_note (req : ApplyReq) (p : ProjectInfo) (t : TechnicianInfo)
  : Stmt :=
  InsNotification (pi_company_id p) "new_application"
    "Nueva Aplicación Recibida"
    ("Has recibido una nueva aplicación de " ++ ti_full_name t
     ++ " para el proyecto " ++ dq ++ pi_title p ++ dq ++ ".")
    (Some (projectId_param (aq_body req))).

(** Whom a list of notification rows addresses, and under which type. *)
Definition recipients (ns : list Notification) : list (Z * string) :=
  map (fun n => (n_user_id n, n_type n)) ns.

(** The schedule rejects the call of [query] number [k] (from 0). *)
Definition fault_at (k : nat) (w : World) : bool := nth k (db_faults w) false.

(** ** The lifecycle operations with a primary write and a fan-out *)

Inductive LifecycleOp : Type :=
| OpSubmit (req : ApplyReq)
| OpUpdateStatus (req : StatusReq).

Definition run_op (env : Env) (op : LifecycleOp) : M Response :=
  match op with
  | OpSubmit req => post_applications env req
  | OpUpdateStatus req => put_status req
  end.

(** The calls of [query] an operation makes before its first notification
    write: the checks, the primary write, and for a submission the two reads
    that feed the templates. *)
Definition queries_before_fanout (op : LifecycleOp) : nat :=
  match op with
  | OpSubmit _ => 6%nat
  | OpUpdateStatus _ => 2%nat
  end.

(** The code an operation answers when it succeeds. *)
Definition success_code (op : LifecycleOp) : Z :=
  match op with
  | OpSubmit _ => 201
  | OpUpdateStatus _ => 200
  end.

(** The notification write of a status change. *)
Definition status_note (req : StatusReq) (row : StatusRow) : Stmt :=
  InsNotification (pa_technician_id (sr_app row)) "application_status"
    (status_title (status req))
    (status_message (status req) (sr_title row))
    (Some (pa_project_id (sr_app row))).

(** The row that write adds. *)
Definition status_notification (req : StatusReq) (row : StatusRow) (w : World)
  : Notification :=
  {| n_id := next_notification_id (db w);
     n_user_id := pa_technician_id (sr_app row);
     n_type := "application_status";
     n_title := status_title (status req);
     n_message := status_message (status req) (sr_title row);
     n_related_id := Some (pa_project_id (sr_app row));
     n_is_read := false |}.

(** A status change that passes every check: valid body, the application
    is found, and the requester is the company that owns its project. *)
Definition status_ready (req : StatusReq) (st : Store) : Prop :=
  status_validationResult req = []
  /\ exists row rest,
       status_rows st (sq_id req) = row :: rest
       /\ userType (sq_user req) = "company"
       /\ sr_company_id row = userId (sq_user req).

(** The requester is not the technician of any application with this id:
    there is none, or it belongs to someone else. *)
Definition not_own_application (st : Store) (id uid : Z) : Prop :=
  forall a, In a (project_applications st) ->
            pa_id a = id -> pa_technician_id a <> uid.

(** ** Weakest preconditions for runs *)

(** [wp c w Q]: running [c] in [w] ends in an outcome, a world and a list of
    events that satisfy [Q]. *)
Definition wp {A} (c : M A) (w : World)
  (Q : Outcome A -> World -> list Event -> Prop) : Prop :=
  Q (out (c w)) (post (c w)) (evs (c w)).

(** ** Invariants of the store *)

(** The tables the lifecycle routes only read. *)
Definition reference_tables (st : Store)
  : list User * list TechnicianProfile * list CompanyProfile * list Project :=
  (users st, technician_profiles st, company_profiles st, projects st).

(** Ids are unique in the two numbered tables and lie below the table's
    AUTO_INCREMENT counter. *)
Definition well_numbered (st : Store) : Prop :=
  (forall a, In a (project_applications st) ->
             pa_id a < next_application_id st)
  /\ NoDup (map pa_id (project_applications st))
  /\ (forall n, In n (notifications st) -> n_id n < next_notification_id st)
  /\ NoDup (map n_id (notifications st)).

(** The five checks of POST / pass: valid body, technician, CV uploaded,
    open project, no earlier application. *)
Definition submit_checks_pass (req : ApplyReq) (st : Store) : Prop :=
  apply_validationResult req = []
  /\ userType (aq_user req) = "technician"
  /\ has_cv st (userId (aq_user req)) = true
  /\ open_project st (projectId_param (aq_body req)) <> None
  /\ applied st (projectId_param (aq_body req)) (userId (aq_user req)) = false.

(** The [500] of each route's [catch]. *)
Definition submit_internal_error : Response :=
  {| code := 500;
     json := JError "Error interno del servidor"
               "Error al aplicar al proyecto" |}.

Definition status_internal_error : Response :=
  {| code := 500;
     json := JError "Error interno del servidor"
               "Error al actualizar el estado de la aplicación" |}.

Definition status_not_found : Response :=
  {| code := 404;
     json := JError "Aplicación no encontrada" "La aplicación no existe" |}.

(** [process.env.UPLOAD_PATH || './uploads'] *)
Definition upload_root (env : Env) : string :=
  match js_or (env "UPLOAD_PATH") (Some "./uploads") with
  | Some base => base
  | None => "./uploads"
  end.

(** The two rows a submission's notification writes add when both are
    accepted. *)
Definition job_notification (req : ApplyReq) (p : ProjectInfo) (id : Z)
  : Notification :=
  {| n_id := id;
     n_user_id := userId (aq_user req);
     n_type := "job_application";
     n_title := "Aplicación Enviada";
     n_message := "Tu aplicación para el proyecto " ++ dq ++ pi_title p ++ dq
                  ++ " ha sido enviada exitosamente.";
     n_related_id := Some (projectId_param (aq_body req));
     n_is_read := false |}.

Definition company_notification (req : ApplyReq) (p : ProjectInfo)
  (t : TechnicianInfo) (id : Z) : Notification :=
  {| n_id := id;
     n_user_id := pi_company_id p;
     n_type := "new_application";
     n_title := "Nueva Aplicación Recibida";
     n_message := "Has recibido una nueva aplicación de " ++ ti_full_name t
                  ++ " para el proyecto " ++ dq ++ pi_title p ++ dq ++ ".";
     n_related_id := Some (projectId_param (aq_body req));
     n_is_read := false |}.

(** The attachments of the operations notice for a technician row. *)
Definition cv_attachments (env : Env) (t : TechnicianInfo) : list FilePath :=
  match ti_cv_file t with
  | Some cv_file =>
      if truthy (Some cv_file) then [path_join (upload_root env) cv_file]
      else []
  | None => []
  end.

(** A world in which the company that owns the one project has no company
    profile. *)
Definition world_without_company_profile : World :=
  {| db := {| users := [Sample.ana];
              technician_profiles :=
                [ {| tp_user_id := 1; tp_cv_uploaded := true;
                     tp_cv_file := None |} ];
              company_profiles := [];
              projects := [Sample.fibra];
              project_applications := [];
              next_application_id := 1;
              notifications := [];
              next_notification_id := 1 |};
     clock := 9; db_faults := []; smtp_faults := []; outbox := [] |}.

(* ===================================================================== *)
(** * routes/notifications.js: the notification router                    *)
(* ===================================================================== *)

(** The five routes of the router that read and write single flags and rows:
    PUT /:id/read, PUT /read-all, GET /unread/count, DELETE /:id and
    DELETE /read.  They work on the notifications table of the same store.
    Each handler is a function of the state it starts in; [query] is the
    gateway of [config/database.js], as above, and a rejected call lands in
    the handler's [catch]. *)
Module Inbox.

Record State := {
  store : Store;
  faults : list bool;
  console : list string
}.

(** One call of [query]: rejected, or answered with the result of [run]. *)
Definition gateway {A} (run : Store -> A * Store) (s : State)
  : option A * State :=
  match faults s with
  | true :: rest =>
      (None, {| store := store s; faults := rest; console := console s |})
  | l =>
      (Some (fst (run (store s))),
       {| store := snd (run (store s)); faults := tl l;
          console := console s |})
  end.

(** [console.error(text, error)] *)
Definition log_error (text : string) (s : State) : State :=
  {| store := store s; faults := faults s;
     console := (console s ++ [text])%list |}.

(** [SELECT * FROM notifications WHERE id = ? AND user_id = ?] *)
Definition select_own (id user_id : Z) (st : Store) : list Notification :=
  filter (fun n => (n_id n =? id) && (n_user_id n =? user_id))
    (notifications st).

Definition set_read (n : Notification) : Notification :=
  {| n_id := n_id n; n_user_id := n_user_id n; n_type := n_type n;
     n_title := n_title n; n_message := n_message n;
     n_related_id := n_related_id n; n_is_read := true |}.

(** [UPDATE notifications SET is_read = TRUE WHERE id = ?] *)
Definition update_read (id : Z) (st : Store) : Store :=
  set_notifications st
    (map (fun n => if n_id n =? id then set_read n else n) (notifications st))
    (next_notification_id st).

(** [UPDATE notifications SET is_read = TRUE WHERE user_id = ? AND
    is_read = FALSE] *)
Definition update_read_all (user_id : Z) (st : Store) : Store :=
  set_notifications st
    (map (fun n => if (n_user_id n =? user_id) && negb (n_is_read n)
                   then set_read n else n)
       (notifications st))
    (next_notification_id st).

(** [SELECT COUNT( * ) as count FROM notifications WHERE user_id = ? AND
    is_read = FALSE] *)
Definition count_unread (user_id : Z) (st : Store) : Z :=
  Z.of_nat
    (List.length
       (filter (fun n => (n_user_id n =? user_id) && negb (n_is_read n))
          (notifications st))).

(** [DELETE FROM notifications WHERE id = ?] *)
Definition delete_by_id (id : Z) (st : Store) : Store :=
  set_notifications st
    (filter (fun n => negb (n_id n =? id)) (notifications st))
    (next_notification_id st).

(** [DELETE FROM notifications WHERE user_id = ? AND is_read = TRUE] *)
Definition delete_read_of (user_id : Z) (st : Store) : Store :=
  set_notifications st
    (filter (fun n => negb ((n_user_id n =? user_id) && n_is_read n))
       (notifications st))
    (next_notification_id st).

Definition ok (message : string) : Response :=
  {| code := 200; json := JMessage message |}.

Definition not_found (message : string) : Response :=
  {| code := 404; json := JError "Notificación no encontrada" message |}.

Definition internal_error (message : string) : Response :=
  {| code := 500; json := JError "Error interno del servidor" message |}.

(** PUT /:id/read *)
Definition put_read (user : ReqUser) (id : Z) (s : State) : Response * State :=
  match gateway (fun st => (select_own id (userId user) st, st)) s with
  | (None, s1) =>
      (internal_error "Error al marcar la notificación",
       log_error "Error al marcar notificación:" s1)
  | (Some [], s1) =>
      (not_found
         "La notificación no existe o no tienes permisos para modificarla",
       s1)
  | (Some (notification :: _), s1) =>
      match gateway (fun st => (tt, update_read id st)) s1 with
      | (None, s2) =>
          (internal_error "Error al marcar la notificación",
           log_error "Error al marcar notificación:" s2)
      | (Some _, s2) => (ok "Notificación marcada como leída", s2)
      end
  end.

(** PUT /read-all *)
Definition put_read_all (user : ReqUser) (s : State) : Response * State :=
  match gateway (fun st => (tt, update_read_all (userId user) st)) s with
  | (None, s1) =>
      (internal_error "Error al marcar las notificaciones",
       log_error "Error al marcar notificaciones:" s1)
  | (Some _, s1) =>
      (ok "Todas las notificaciones han sido marcadas como leídas", s1)
  end.

(** The body of GET /unread/count: [{unreadCount}], or the error body. *)
Inductive CountReply : Type :=
| UnreadCount (unreadCount : Z)
| CountFailed (r : Response).

(** GET /unread/count *)
Definition get_unread_count (user : ReqUser) (s : State)
  : CountReply * State :=
  match gateway (fun st => (count_unread (userId user) st, st)) s with
  | (None, s1) =>
      (CountFailed
         (internal_error "Error al obtener el conteo de notificaciones"),
       log_error "Error al obtener conteo de notificaciones:" s1)
  | (Some count, s1) => (UnreadCount count, s1)
  end.

(** DELETE /:id *)
Definition delete_notification (user : ReqUser) (id : Z) (s : State)
  : Response * State :=
  match gateway (fun st => (select_own id (userId user) st, st)) s with
  | (None, s1) =>
      (internal_error "Error al eliminar la notificación",
       log_error "Error al eliminar notificación:" s1)
  | (Some [], s1) =>
      (not_found
         "La notificación no existe o no tienes permisos para eliminarla",
       s1)
  | (Some (notification :: _), s1) =>
      match gateway (fun st => (tt, delete_by_id id st)) s1 with
      | (None, s2) =>
          (internal_error "Error al eliminar la notificación",
           log_error "Error al eliminar notificación:" s2)
      | (Some _, s2) => (ok "Notificación eliminada exitosamente", s2)
      end
  end.

(** DELETE /read *)
Definition delete_read (user : ReqUser) (s : State) : Response * State :=
  match gateway (fun st => (tt, delete_read_of (userId user) st)) s with
  | (None, s1) =>
      (internal_error "Error al eliminar las notificaciones",
       log_error "Error al eliminar notificaciones:" s1)
  | (Some _, s1) =>
      (ok "Notificaciones leídas eliminadas exitosamente", s1)
  end.

(** The notifications of the users other than [user_id]. *)
Definition of_others (user_id : Z) (st : Store) : list Notification :=
  filter (fun n => negb (n_user_id n =? user_id)) (notifications st).

(** A state over a store in which the gateway answers every call. *)
Definition healthy (st : Store) : State :=
  {| store := st; faults := []; console := [] |}.

End Inbox.

(** ** The order of the routes *)

(** Express tries the routes of a router in the order they were registered
    and hands the request to the first whose method and pattern match; the
    handlers here all answer without calling [next].  A pattern is a list of
    segments, a literal one matching without regard to case and [:name]
    matching any one segment; a path is the list of its segments. *)
Module Router.

Inductive Method : Type := GET | POST | PUT | DELETE.

Definition method_eqb (a b : Method) : bool :=
  match a, b with
  | GET, GET | POST, POST | PUT, PUT | DELETE, DELETE => true
  | _, _ => false
  end.

Inductive Segment : Type :=
| Lit (s : string)
| Param (name : string).

Definition lower_ascii (c : Ascii.ascii) : Ascii.ascii :=
  let n := Ascii.nat_of_ascii c in
  if ((65 <=? n) && (n <=? 90))%nat then Ascii.ascii_of_nat (n + 32) else c.

Fixpoint lower (s : string) : string :=
  match s with
  | EmptyString => EmptyString
  | String c rest => String (lower_ascii c) (lower rest)
  end.

Fixpoint matches (pattern : list Segment) (path : list string)
  : option (list (string * string)) :=
  match pattern, path with
  | [], [] => Some []
  | Lit s :: pattern', x :: path' =>
      if (lower s =? lower x)%string then matches pattern' path' else None
  | Param name :: pattern', x :: path' =>
      match matches pattern' path' with
      | Some params => Some ((name, x) :: params)
      | None => None
      end
  | _, _ => None
  end.

(** The handlers of routes/notifications.js, by route. *)
Inductive Handler : Type :=
| ListNotifications
| MarkRead
| MarkAllRead
| CountUnread
| DeleteOne
| DeleteRead.

(** The routes, in the order the file registers them. *)
Definition notification_routes : list (Method * list Segment * Handler) :=
  [ (GET, [], ListNotifications);
    (PUT, [Param "id"; Lit "read"], MarkRead);
    (PUT, [Lit "read-all"], MarkAllRead);
    (GET, [Lit "unread"; Lit "count"], CountUnread);
    (DELETE, [Param "id"], DeleteOne);
    (DELETE, [Lit "read"], DeleteRead) ].

Fixpoint dispatch (routes : list (Method * list Segment * Handler))
  (m : Method) (path : list string)
  : option (Handler * list (string * string)) :=
  match routes with
  | [] => None
  | (m', pattern, h) :: routes' =>
      if method_eqb m m' then
        match matches pattern path with
        | Some params => Some (h, params)
        | None => dispatch routes' m path
        end
      else dispatch routes' m path
  end.

End Router.

(* ===================================================================== *)
(** * middleware/auth.js                                                  *)
(* ===================================================================== *)

Module Auth.

(** The values the middleware stores in and reads from [req.user]. *)
Inductive JsVal : Type :=
| Undefined
| Str (s : string)
| Num (z : Z)
| Bool (b : bool).

(** An object literal, as its list of fields; reading a field that is not
    there gives [undefined]. *)
Definition JsObject : Type := list (string * JsVal).

Fixpoint get (o : JsObject) (key : string) : JsVal :=
  match o with
  | [] => Undefined
  | (k, v) :: o' => if (k =? key)%string then v else get o' key
  end.

(** A row of [SELECT id, email, full_name, user_type, is_verified,
    is_active FROM users]. *)
Record Account := {
  id : Z;
  email : string;
  full_name : string;
  user_type : string;
  is_verified : bool;
  is_active : bool
}.

(** What [jwt.verify] does with a token: it returns the payload, of which
    the middleware reads [userId], or throws an error of one of the two
    names the [catch] tells apart, or another error. *)
Inductive Verified : Type :=
| Decoded (userId : Z)
| TokenExpiredError
| JsonWebTokenError
| OtherError.

(** The middleware answers, or calls [next()] with [req.user] set. *)
Inductive Step : Type :=
| Respond (r : Response)
| Next (user : JsObject).

(** The space character. *)
Definition space : Ascii.ascii := Ascii.ascii_of_nat 32.

(** [s.split(sep)] for a one-character separator. *)
Fixpoint split (sep : Ascii.ascii) (s : string) : list string :=
  match s with
  | EmptyString => [EmptyString]
  | String c rest =>
      match split sep rest with
      | [] => [String c EmptyString]
      | x :: xs =>
          if Ascii.eqb c sep then EmptyString :: x :: xs
          else String c x :: xs
      end
  end.

(** [authHeader && authHeader.split(' ')[1]] *)
Definition token (authHeader : option string) : option string :=
  if truthy authHeader then
    match authHeader with
    | Some h => nth_error (split space h) 1
    | None => None
    end
  else authHeader.

Definition unauthorized (error message : string) : Response :=
  {| code := 401; json := JError error message |}.

Definition token_required : Response :=
  unauthorized "Token requerido"
    "Debes proporcionar un token de autenticación".

Definition authentication_error : Response :=
  {| code := 500;
     json := JError "Error de autenticación" "Error interno del servidor" |}.

(** [authenticateToken], for a given [jwt.verify], users table and outcome
    of the one call of [query] ([fault = true]: the call rejects with a
    driver error, whose name is neither of the two JWT names). *)
Definition authenticateToken (verify : string -> Verified)
  (accounts : list Account) (fault : bool) (authHeader : option string)
  : Step :=
  match token authHeader with
  | None => Respond token_required
  | Some tok =>
      if negb (truthy (Some tok)) then Respond token_required
      else
        match verify tok with
        | Decoded userId =>
            if fault then Respond authentication_error
            else
              match filter (fun a => (id a =? userId) && is_active a) accounts
              with
              | [] =>
                  Respond
                    (unauthorized "Usuario no encontrado"
                       "El usuario asociado al token no existe o está inactivo")
              | user :: _ =>
                  Next [ ("userId", Num (id user));
                         ("email", Str (email user));
                         ("userType", Str (user_type user));
                         ("fullName", Str (full_name user));
                         ("isVerified", Bool (is_verified user)) ]
              end
        | TokenExpiredError =>
            Respond
              (unauthorized "Token expirado"
                 "Tu sesión ha expirado, inicia sesión nuevamente")
        | JsonWebTokenError =>
            Respond
              (unauthorized "Token inválido"
                 "El token proporcionado no es válido")
        | OtherError => Respond authentication_error
        end
  end.

(** [roles.includes(v)] for an array of strings. *)
Definition includes (roles : list string) (v : JsVal) : bool :=
  match v with
  | Str s => existsb (String.eqb s) roles
  | _ => false
  end.

Definition access_denied : Response :=
  {| code := 403;
     json := JError "Acceso denegado"
               "No tienes permisos para acceder a este recurso" |}.

(** [requireRole(roles)]: [None] is [next()]. *)
Definition requireRole (roles : list string) (req_user : option JsObject)
  : option Response :=
  match req_user with
  | None =>
      Some (unauthorized "No autorizado"
              "Debes iniciar sesión para acceder a este recurso")
  | Some user =>
      if negb (includes roles (get user "user_type")) then Some access_denied
      else None
  end.

(** The header holds no space. *)
Fixpoint spaceless (s : string) : bool :=
  match s with
  | EmptyString => true
  | String c rest => negb (Ascii.eqb c space) && spaceless rest
  end.

End Auth.

(* ===================================================================== *)
(** * Rules for running the monad                                         *)
(* ===================================================================== *)

Section Rules.

Context {A B : Type}.

Lemma wp_ret (a : A) w Q : Q (Ret a) w [] -> wp (ret a) w Q.
Proof. exact (fun H => H). Qed.

Lemma wp_throw (e : JsError) w (Q : Outcome A -> _) :
  Q (Throw e) w [] -> wp (throw e) w Q.
Proof. exact (fun H => H). Qed.

Lemma wp_bind (c : M A) (k : A -> M B) w Q :
  wp c w (fun o w1 es1 =>
    match o with
    | Ret a => wp (k a) w1 (fun o2 w2 es2 => Q o2 w2 (es1 ++ es2)%list)
    | Throw e => Q (Throw e) w1 es1
    end) ->
  wp (bind c k) w Q.
Proof.
  unfold wp, bind. destruct (c w) as [[a|e] w1 es1]; simpl; [|tauto].
  destruct (k a w1) as [o2 w2 es2]; simpl. tauto.
Qed.

Lemma wp_try_catch (c : M A) (h : JsError -> M A) w Q :
  wp c w (fun o w1 es1 =>
    match o with
    | Ret a => Q (Ret a) w1 es1
    | Throw e => wp (h e) w1 (fun o2 w2 es2 => Q o2 w2 (es1 ++ es2)%list)
    end) ->
  wp (try_catch c h) w Q.
Proof.
  unfold wp, try_catch. destruct (c w) as [[a|e] w1 es1]; simpl; [tauto|].
  destruct (h e w1) as [o2 w2 es2]; simpl. tauto.
Qed.

Lemma wp_if (b : bool) (c1 c2 : M A) w Q :
  (b = true -> wp c1 w Q) -> (b = false -> wp c2 w Q) ->
  wp (if b then c1 else c2) w Q.
Proof. destruct b; auto. Qed.

Lemma wp_call_bound scope name (c : M A) w Q :
  existsb (String.eqb name) scope = true -> wp c w Q ->
  wp (call scope name c) w Q.
Proof. unfold call. intros ->. auto. Qed.

Lemma wp_call_unbound scope name (c : M A) w (Q : Outcome A -> _) :
  existsb (String.eqb name) scope = false ->
  Q (Throw (ReferenceError (name ++ " is not defined"))) w [] ->
  wp (call scope name c) w Q.
Proof. unfold call. intros ->. auto. Qed.

End Rules.

Lemma wp_console level text w Q :
  Q (Ret tt) w [EvConsole level text] -> wp (console level text) w Q.
Proof. exact (fun H => H). Qed.

Lemma query_run s w :
  query s w =
  if hd false (db_faults w) then
    {| out := Throw (DbError s); post := reject_query w; evs := [EvQuery s] |}
  else
    {| out := Ret (fst (exec (clock w) s (db w))); post := answer_query s w;
       evs := [EvQuery s] |}.
Proof.
  unfold query, reject_query, answer_query.
  destruct (db_faults w) as [|[|] l]; reflexivity.
Qed.

Lemma sendMail_run m w :
  sendMail m w =
  if hd false (smtp_faults w) then
    {| out := Throw (SmtpError m); post := reject_mail w;
       evs := [EvSendMail m] |}
  else
    {| out := Ret (Z.of_nat (List.length (outbox w)));
       post := deliver_mail m w; evs := [EvSendMail m] |}.
Proof.
  unfold sendMail, reject_mail, deliver_mail.
  destruct (smtp_faults w) as [|[|] l]; reflexivity.
Qed.

Lemma wp_query s w Q :
  (hd false (db_faults w) = true ->
   Q (Throw (DbError s)) (reject_query w) [EvQuery s]) ->
  (hd false (db_faults w) = false ->
   Q (Ret (fst (exec (clock w) s (db w)))) (answer_query s w) [EvQuery s]) ->
  wp (query s) w Q.
Proof.
  unfold wp. rewrite query_run.
  destruct (hd false (db_faults w)); simpl; auto.
Qed.

Lemma wp_sendMail m w Q :
  (hd false (smtp_faults w) = true ->
   Q (Throw (SmtpError m)) (reject_mail w) [EvSendMail m]) ->
  (hd false (smtp_faults w) = false ->
   Q (Ret (Z.of_nat (List.length (outbox w)))) (deliver_mail m w)
     [EvSendMail m]) ->
  wp (sendMail m) w Q.
Proof.
  unfold wp. rewrite sendMail_run.
  destruct (hd false (smtp_faults w)); simpl; auto.
Qed.

(** ** Runs of the notification writer and of the mailer *)

Lemma createNotification_run userId type title message relatedId w :
  createNotification userId type title message relatedId w =
  if hd false (db_faults w) then
    {| out := Ret (NotificationFailure "query failed");
       post := reject_query w;
       evs := [EvQuery (InsNotification userId type title message relatedId);
               EvConsole "error" "Error creando notificación:"] |}
  else
    {| out := Ret (NotificationSuccess (next_notification_id (db w)));
       post := answer_query
                 (InsNotification userId type title message relatedId) w;
       evs := [EvQuery (InsNotification userId type title message relatedId)] |}.
Proof.
  unfold createNotification, try_catch, bind. rewrite query_run.
  destruct (hd false (db_faults w)); reflexivity.
Qed.

Lemma wp_createNotification userId type title message relatedId w Q :
  (hd false (db_faults w) = true ->
   Q (Ret (NotificationFailure "query failed")) (reject_query w)
     [EvQuery (InsNotification userId type title message relatedId);
      EvConsole "error" "Error creando notificación:"]) ->
  (hd false (db_faults w) = false ->
   Q (Ret (NotificationSuccess (next_notification_id (db w))))
     (answer_query (InsNotification userId type title message relatedId) w)
     [EvQuery (InsNotification userId type title message relatedId)]) ->
  wp (createNotification userId type title message relatedId) w Q.
Proof.
  unfold wp. rewrite createNotification_run.
  destruct (hd false (db_faults w)); simpl; auto.
Qed.

Lemma sendJobApplicationEmail_run env d w :
  sendJobApplicationEmail env d w =
  if negb (isEmailConfigured env) then
    {| out := Ret not_configured; post := w;
       evs := [EvConsole "warn"
                 "⚠️  Email no configurado. No se enviará el email de aplicación."] |}
  else if hd false (smtp_faults w) then
    {| out := Ret (SendFailure "sendMail failed"); post := reject_mail w;
       evs := [EvSendMail (application_mail env d);
               EvConsole "error" "Error enviando email de aplicación:"] |}
  else
    {| out := Ret (SendSuccess (Z.of_nat (List.length (outbox w))));
       post := deliver_mail (application_mail env d) w;
       evs := [EvSendMail (application_mail env d);
               EvConsole "log" "Email de aplicación enviado:"] |}.
Proof.
  unfold sendJobApplicationEmail.
  destruct (negb (isEmailConfigured env)); [reflexivity|].
  unfold try_catch, bind.
  change (sendMail _ w) with (sendMail (application_mail env d) w).
  rewrite sendMail_run.
  destruct (hd false (smtp_faults w)); reflexivity.
Qed.

Lemma sendApplicationConfirmationEmail_run env email name title w :
  sendApplicationConfirmationEmail env email name title w =
  if negb (isEmailConfigured env) then
    {| out := Ret not_configured; post := w;
       evs := [EvConsole "warn"
                 "⚠️  Email no configurado. No se enviará el email de confirmación."] |}
  else if hd false (smtp_faults w) then
    {| out := Ret (SendFailure "sendMail failed"); post := reject_mail w;
       evs := [EvSendMail (confirmation_mail env email title);
               EvConsole "error" "Error enviando email de confirmación:"] |}
  else
    {| out := Ret (SendSuccess (Z.of_nat (List.length (outbox w))));
       post := deliver_mail (confirmation_mail env email title) w;
       evs := [EvSendMail (confirmation_mail env email title);
               EvConsole "log" "Email de confirmación enviado:"] |}.
Proof.
  unfold sendApplicationConfirmationEmail.
  destruct (negb (isEmailConfigured env)); [reflexivity|].
  unfold try_catch, bind.
  change (sendMail _ w) with (sendMail (confirmation_mail env email title) w).
  rewrite sendMail_run.
  destruct (hd false (smtp_faults w)); reflexivity.
Qed.

Lemma wp_sendJobApplicationEmail env d w Q :
  (forall o w' es,
     mailer_post w o w' es ->
     (isEmailConfigured env = false -> w' = w /\ mails_of es = []) ->
     Q o w' es) ->
  wp (sendJobApplicationEmail env d) w Q.
Proof.
  intros H. unfold wp. rewrite sendJobApplicationEmail_run.
  destruct (isEmailConfigured env); simpl;
    [destruct (hd false (smtp_faults w)); simpl|];
    apply H; unfold mailer_post; simpl;
    try (intros; discriminate); eauto 10.
Qed.

Lemma wp_sendApplicationConfirmationEmail env email name title w Q :
  (forall o w' es,
     mailer_post w o w' es ->
     (isEmailConfigured env = false -> w' = w /\ mails_of es = []) ->
     Q o w' es) ->
  wp (sendApplicationConfirmationEmail env email name title) w Q.
Proof.
  intros H. unfold wp. rewrite sendApplicationConfirmationEmail_run.
  destruct (isEmailConfigured env); simpl;
    [destruct (hd false (smtp_faults w)); simpl|];
    apply H; unfold mailer_post; simpl;
    try (intros; discriminate); eauto 10.
Qed.

(** ** Forward rules: one branch is known *)

Lemma wp_if_true {A} (b : bool) (c1 c2 : M A) w Q :
  b = true -> wp c1 w Q -> wp (if b then c1 else c2) w Q.
Proof. intros ->. auto. Qed.

Lemma wp_if_false {A} (b : bool) (c1 c2 : M A) w Q :
  b = false -> wp c2 w Q -> wp (if b then c1 else c2) w Q.
Proof. intros ->. auto. Qed.

Lemma wp_query_ok s w Q :
  hd false (db_faults w) = false ->
  Q (Ret (fst (exec (clock w) s (db w)))) (answer_query s w) [EvQuery s] ->
  wp (query s) w Q.
Proof. intros F H. apply wp_query; [rewrite F; discriminate | auto]. Qed.

(** ** Schedules *)

Lemma answered_S n l :
  answered (S n) l = negb (hd false l) && answered n (tl l).
Proof.
  destruct l as [|b t]; simpl; [|reflexivity].
  destruct n; reflexivity.
Qed.

Lemma answered_S_inv n l :
  answered (S n) l = true ->
  hd false l = false /\ answered n (tl l) = true.
Proof.
  rewrite answered_S. intros H. apply andb_true_iff in H as [H1 H2].
  apply negb_true_iff in H1. auto.
Qed.

Lemma answered_repeat n l : answered n (repeat false n ++ l) = true.
Proof. induction n; simpl; auto. Qed.

Lemma nth_tl {A} k (l : list A) d : nth (S k) l d = nth k (tl l) d.
Proof. destruct l; simpl; [destruct k|]; reflexivity. Qed.

Lemma nth_hd {A} (l : list A) d : nth 0 l d = hd d l.
Proof. destruct l; reflexivity. Qed.

(** ** What the SELECTs of POST / decide, in the vocabulary above *)

Lemma cv_check now st uid :
  (List.length (fst (exec now (SelCvUploaded uid) st)) =? 0)%nat
  || negb (hd false (fst (exec now (SelCvUploaded uid) st)))
  = negb (has_cv st uid).
Proof.
  unfold has_cv, cv_profile. simpl.
  induction (technician_profiles st) as [|tp l IH]; simpl; [reflexivity|].
  destruct (tp_user_id tp =? uid); simpl; [reflexivity | exact IH].
Qed.

Lemma open_check now st pid :
  (List.length (fst (exec now (SelOpenProject pid) st)) =? 0)%nat
  = match open_project st pid with Some _ => false | None => true end.
Proof.
  unfold open_project. simpl.
  induction (projects st) as [|p l IH]; simpl; [reflexivity|].
  destruct ((p_id p =? pid) && (p_status p =? "open")%string); simpl;
    [reflexivity | exact IH].
Qed.

Lemma applied_check now st pid uid :
  (0 <? List.length (fst (exec now (SelExistingApplication pid uid) st)))%nat
  = applied st pid uid.
Proof.
  unfold applied. simpl.
  induction (project_applications st) as [|a l IH]; simpl; [reflexivity|].
  destruct ((pa_project_id a =? pid) && (pa_technician_id a =? uid)); simpl;
    [reflexivity | exact IH].
Qed.

Lemma valid_projectId req :
  apply_validationResult req = [] ->
  projectId (aq_body req) = Wellformed (projectId_param (aq_body req)).
Proof.
  unfold apply_validationResult, projectId_param.
  destruct (projectId (aq_body req)); simpl; intros H;
    [discriminate | discriminate | reflexivity].
Qed.

Lemma not_failure resp :
  In resp precondition_failures ->
  code resp <> 201 /\ code resp <> 500
  /\ (forall e d, json resp <> JInvalid e d).
Proof.
  unfold precondition_failures. simpl.
  intros [H|[H|[H|[H|[]]]]]; subst resp; simpl; repeat split;
    try lia; discriminate.
Qed.

(** ** Events *)

Lemma queries_of_app es1 es2 :
  queries_of (es1 ++ es2) = (queries_of es1 ++ queries_of es2)%list.
Proof. unfold queries_of. apply flat_map_app. Qed.

Lemma mails_of_app es1 es2 :
  mails_of (es1 ++ es2) = (mails_of es1 ++ mails_of es2)%list.
Proof. unfold mails_of. apply flat_map_app. Qed.

Lemma writes_of_app es1 es2 :
  writes_of (es1 ++ es2) = (writes_of es1 ++ writes_of es2)%list.
Proof. unfold writes_of. rewrite queries_of_app. apply filter_app. Qed.

Lemma notification_inserts_of_app es1 es2 :
  notification_inserts_of (es1 ++ es2)
  = (notification_inserts_of es1 ++ notification_inserts_of es2)%list.
Proof.
  unfold notification_inserts_of. rewrite queries_of_app. apply filter_app.
Qed.

Lemma notification_inserts_of_quiet es :
  queries_of es = [] -> notification_inserts_of es = [].
Proof. unfold notification_inserts_of. intros ->. reflexivity. Qed.

(** ** Stepping through a handler *)

Ltac wp_step :=
  lazymatch goal with
  | |- wp (bind _ _) _ _ => apply wp_bind
  | |- wp (try_catch _ _) _ _ => apply wp_try_catch
  | |- wp (ret _) _ _ => apply wp_ret
  | |- wp (throw _) _ _ => apply wp_throw
  | |- wp (undefined_property _) _ _ => apply wp_throw
  | |- wp (console _ _) _ _ => apply wp_console
  | |- wp (query _) _ _ => apply wp_query; intros ?F
  | |- wp (createJobApplicationNotification _ _ _) _ _ =>
      apply wp_createNotification; intros ?F
  | |- wp (createNewApplicationNotification _ _ _ _) _ _ =>
      apply wp_createNotification; intros ?F
  | |- wp (createApplicationStatusNotification _ _ _ _) _ _ =>
      apply wp_createNotification; intros ?F
  | |- wp (sendApplicationConfirmationEmail _ _ _ _) _ _ =>
      apply wp_sendApplicationConfirmationEmail;
      intros ? ? ? ([? ->] & ?Hdb & ?Hclk & ?Hdbf & ?Hq & ?Hm) ?U
  | |- wp (sendJobApplicationEmail _ _) _ _ =>
      apply wp_sendJobApplicationEmail;
      intros ? ? ? ([? ->] & ?Hdb & ?Hclk & ?Hdbf & ?Hq & ?Hm) ?U
  | |- wp (call _ _ _) _ _ =>
      first [ apply wp_call_bound; [reflexivity|]
            | apply wp_call_unbound; [reflexivity|] ]
  | |- wp (if _ then _ else _) _ _ => apply wp_if; intros ?C
  | |- wp (match ?l with [] => _ | _ :: _ => _ end) _ _ =>
      destruct l eqn:?
  | |- wp (let _ := _ in _) _ _ => cbv zeta
  end; cbv beta iota.

Ltac wp_run := repeat wp_step.

(** Forward steps, for a path whose branches are known. *)
Ltac wp_query_ok F :=
  apply wp_bind; apply wp_query_ok; [exact F | cbv beta iota].

Ltac wp_else := apply wp_if_false; [ | ].
Ltac wp_then := apply wp_if_true; [ | ].

(* ===================================================================== *)
(** * POST /: the order of the checks                                     *)
(* ===================================================================== *)

Lemma submit_valid_not_empty req :
  apply_validationResult req = [] ->
  negb (isEmpty (apply_validationResult req)) = false.
Proof. intros ->. reflexivity. Qed.

Lemma submit_technician_check req :
  userType (aq_user req) = "technician" ->
  negb (userType (aq_user req) =? "technician")%string = false.
Proof. intros ->. reflexivity. Qed.

Lemma submit_forbidden env req w :
  apply_validationResult req = [] ->
  userType (aq_user req) <> "technician" ->
  post_applications env req w
  = {| out := Ret forbidden_apply; post := w; evs := [] |}.
Proof.
  intros Hv Hr. unfold post_applications, try_catch.
  rewrite (submit_valid_not_empty _ Hv). cbv zeta.
  destruct (userType (aq_user req) =? "technician")%string eqn:E.
  - apply String.eqb_eq in E. contradiction.
  - reflexivity.
Qed.

Lemma submit_cv_required env req w :
  apply_validationResult req = [] ->
  userType (aq_user req) = "technician" ->
  answered 1 (db_faults w) = true ->
  has_cv (db w) (userId (aq_user req)) = false ->
  out (post_applications env req w) = Ret cv_required.
Proof.
  intros Hv Hr HA Hcv.
  apply answered_S_inv in HA as [F0 _].
  change (wp (post_applications env req) w (fun o _ _ => o = Ret cv_required)).
  unfold post_applications. apply wp_try_catch.
  wp_else; [exact (submit_valid_not_empty _ Hv)|]. cbv zeta.
  wp_else; [exact (submit_technician_check _ Hr)|].
  wp_query_ok F0.
  wp_then; [rewrite cv_check, Hcv; reflexivity|].
  reflexivity.
Qed.

Lemma submit_project_not_found env req w :
  apply_validationResult req = [] ->
  userType (aq_user req) = "technician" ->
  answered 2 (db_faults w) = true ->
  has_cv (db w) (userId (aq_user req)) = true ->
  open_project (db w) (projectId_param (aq_body req)) = None ->
  out (post_applications env req w) = Ret project_not_found.
Proof.
  intros Hv Hr HA Hcv Hop.
  apply answered_S_inv in HA as [F0 HA].
  apply answered_S_inv in HA as [F1 _].
  change (wp (post_applications env req) w
            (fun o _ _ => o = Ret project_not_found)).
  unfold post_applications. apply wp_try_catch.
  wp_else; [exact (submit_valid_not_empty _ Hv)|]. cbv zeta.
  wp_else; [exact (submit_technician_check _ Hr)|].
  wp_query_ok F0.
  wp_else; [rewrite cv_check, Hcv; reflexivity|].
  wp_query_ok F1.
  wp_then; [rewrite open_check; simpl; rewrite Hop; reflexivity|].
  reflexivity.
Qed.

Lemma submit_already_applied env req w :
  apply_validationResult req = [] ->
  userType (aq_user req) = "technician" ->
  answered 3 (db_faults w) = true ->
  has_cv (db w) (userId (aq_user req)) = true ->
  open_project (db w) (projectId_param (aq_body req)) <> None ->
  applied (db w) (projectId_param (aq_body req)) (userId (aq_user req)) = true ->
  out (post_applications env req w) = Ret already_applied.
Proof.
  intros Hv Hr HA Hcv Hop Hap.
  apply answered_S_inv in HA as [F0 HA].
  apply answered_S_inv in HA as [F1 HA].
  apply answered_S_inv in HA as [F2 _].
  change (wp (post_applications env req) w
            (fun o _ _ => o = Ret already_applied)).
  unfold post_applications. apply wp_try_catch.
  wp_else; [exact (submit_valid_not_empty _ Hv)|]. cbv zeta.
  wp_else; [exact (submit_technician_check _ Hr)|].
  wp_query_ok F0.
  wp_else; [rewrite cv_check, Hcv; reflexivity|].
  wp_query_ok F1.
  wp_else; [rewrite open_check; simpl;
            destruct (open_project (db w) (projectId_param (aq_body req)));
            [reflexivity | contradiction]|].
  wp_query_ok F2.
  wp_then; [rewrite applied_check; exact Hap|].
  reflexivity.
Qed.

Lemma precondition_failures_distinct : NoDup precondition_failures.
Proof.
  unfold precondition_failures.
  repeat constructor; simpl; intuition discriminate.
Qed.

(** C1. POST / checks role, CV, open project and duplicate in this order,
    and each failing check answers with its own response: a requester who is
    not a technician gets [Forbidden] whatever the store holds; a technician
    whose profile lacks [cv_uploaded = true] gets
    [PreconditionFailed(cv_required)] whatever the project is; a project id
    with no open project gets [NotFound] whether or not an application
    exists; and an existing (project, technician) application gets
    [Conflict(already_applied)].  The four responses are pairwise distinct.
    The request has passed validation, and the reads a check needs are
    answered by the database. *)
Theorem submit_checks_in_order env req w :
  apply_validationResult req = [] ->
  let u := aq_user req in
  let pid := projectId_param (aq_body req) in
  let res := out (post_applications env req w) in
  (userType u <> "technician" -> res = Ret forbidden_apply)
  /\ (userType u = "technician" ->
      answered 1 (db_faults w) = true ->
      has_cv (db w) (userId u) = false ->
      res = Ret cv_required)
  /\ (userType u = "technician" ->
      answered 2 (db_faults w) = true ->
      has_cv (db w) (userId u) = true ->
      open_project (db w) pid = None ->
      res = Ret project_not_found)
  /\ (userType u = "technician" ->
      answered 3 (db_faults w) = true ->
      has_cv (db w) (userId u) = true ->
      open_project (db w) pid <> None ->
      applied (db w) pid (userId u) = true ->
      res = Ret already_applied)
  /\ NoDup precondition_failures.
Proof.
  intros Hv u pid res. subst u pid res. repeat split.
  - intros Hr. rewrite (submit_forbidden env req w Hv Hr). reflexivity.
  - intros. now apply submit_cv_required.
  - intros. now apply submit_project_not_found.
  - intros. now apply submit_already_applied.
  - exact precondition_failures_distinct.
Qed.

Lemma submit_checks_in_order_witness :
  out (post_applications Sample.configured
         (Sample.apply_to (Sample.company 2) 12)
         (Sample.world "pending" [] [])) = Ret forbidden_apply
  /\ out (post_applications Sample.configured
            (Sample.apply_to (Sample.technician 3) 12)
            (Sample.world "pending" [] [])) = Ret cv_required
  /\ out (post_applications Sample.configured
            (Sample.apply_to (Sample.technician 1) 11)
            (Sample.world "pending" [] [])) = Ret project_not_found
  /\ out (post_applications Sample.configured
            (Sample.apply_to (Sample.technician 1) 10)
            (Sample.world "pending" [] [])) = Ret already_applied.
Proof.
  split; [|split; [|split]].
  - apply (submit_checks_in_order Sample.configured
             (Sample.apply_to (Sample.company 2) 12)
             (Sample.world "pending" [] []) eq_refl).
    discriminate.
  - apply (submit_checks_in_order Sample.configured
             (Sample.apply_to (Sample.technician 3) 12)
             (Sample.world "pending" [] []) eq_refl); reflexivity.
  - apply (submit_checks_in_order Sample.configured
             (Sample.apply_to (Sample.technician 1) 11)
             (Sample.world "pending" [] []) eq_refl); reflexivity.
  - apply (submit_checks_in_order Sample.configured
             (Sample.apply_to (Sample.technician 1) 10)
             (Sample.world "pending" [] []) eq_refl);
      [reflexivity | reflexivity | reflexivity | discriminate | reflexivity].
Defined.

(* ===================================================================== *)
(** * POST /: a failed check writes nothing                               *)
(* ===================================================================== *)

(** C3. When POST / answers with one of the four precondition failures, the
    store after the call is the store before it, the mail ledger is
    unchanged, and the run has issued no INSERT or UPDATE and has not
    contacted the mail transport. *)
Theorem submit_failure_writes_nothing env req w resp :
  let r := post_applications env req w in
  out r = Ret resp ->
  In resp precondition_failures ->
  db (post r) = db w
  /\ outbox (post r) = outbox w
  /\ writes_of (evs r) = []
  /\ mails_of (evs r) = [].
Proof.
  intros r. subst r. revert resp.
  change (wp (post_applications env req) w (fun o w' es =>
    forall resp, o = Ret resp -> In resp precondition_failures ->
    db w' = db w /\ outbox w' = outbox w
    /\ writes_of es = [] /\ mails_of es = [])).
  unfold post_applications. wp_run.
  all: intros resp E Hin; try (repeat split; fail).
  all: inversion E; subst resp; apply not_failure in Hin; simpl in Hin;
    destruct Hin as (N1 & N2 & N3);
    first [ lia | exfalso; eapply N3; reflexivity ].
Qed.

Lemma submit_failure_writes_nothing_witness :
  let r := post_applications Sample.configured
             (Sample.apply_to (Sample.technician 3) 12)
             (Sample.world "pending" [] []) in
  db (post r) = Sample.store "pending"
  /\ outbox (post r) = []
  /\ writes_of (evs r) = []
  /\ mails_of (evs r) = [].
Proof.
  apply (submit_failure_writes_nothing Sample.configured
           (Sample.apply_to (Sample.technician 3) 12)
           (Sample.world "pending" [] []) cv_required).
  - reflexivity.
  - simpl. auto.
Defined.

(* ===================================================================== *)
(** * POST /: the successful path                                         *)
(* ===================================================================== *)

(** When every check passes and the database answers the six calls up to
    the reads that feed the templates, the response is [201] with the new id
    and the new row is in the table, whatever the notification writes and
    the mailer then do. *)
Lemma submit_created_intro env req w :
  submit_ready req (db w) ->
  answered 6 (db_faults w) = true ->
  let r := post_applications env req w in
  out r = Ret (created (next_application_id (db w)))
  /\ project_applications (db (post r))
     = (project_applications (db w) ++ [new_application req w])%list.
Proof.
  intros (Hv & Hr & Hcv & Hop & Hap & Hpi & Hti) HA r. subst r.
  apply answered_S_inv in HA as [F0 HA].
  apply answered_S_inv in HA as [F1 HA].
  apply answered_S_inv in HA as [F2 HA].
  apply answered_S_inv in HA as [F3 HA].
  apply answered_S_inv in HA as [F4 HA].
  apply answered_S_inv in HA as [F5 _].
  change (wp (post_applications env req) w (fun o w' _ =>
    o = Ret (created (next_application_id (db w)))
    /\ project_applications (db w')
       = (project_applications (db w) ++ [new_application req w])%list)).
  unfold post_applications. apply wp_try_catch.
  wp_else; [exact (submit_valid_not_empty _ Hv)|]. cbv zeta.
  wp_else; [exact (submit_technician_check _ Hr)|].
  wp_query_ok F0.
  wp_else; [rewrite cv_check, Hcv; reflexivity|].
  wp_query_ok F1.
  wp_else; [rewrite open_check; simpl;
            destruct (open_project (db w) (projectId_param (aq_body req)));
            [reflexivity | contradiction]|].
  wp_query_ok F2.
  wp_else; [rewrite applied_check; exact Hap|].
  wp_query_ok F3. wp_query_ok F4. wp_query_ok F5.
  wp_run.
  all: try (exfalso; apply Hpi; assumption).
  all: try (exfalso; apply Hti; assumption).
  all: split; [reflexivity|].
  all: rewrite Hdb0, Hdb; reflexivity.
Qed.

Lemma fault_at_tl6 w :
  fault_at 6 w = hd false (tl (tl (tl (tl (tl (tl (db_faults w))))))).
Proof. unfold fault_at. rewrite !nth_tl. apply nth_hd. Qed.

Lemma fault_at_tl7 w :
  fault_at 7 w = hd false (tl (tl (tl (tl (tl (tl (tl (db_faults w)))))))).
Proof. unfold fault_at. rewrite !nth_tl. apply nth_hd. Qed.

Lemma answered_6 l :
  hd false l = false ->
  hd false (tl l) = false ->
  hd false (tl (tl l)) = false ->
  hd false (tl (tl (tl l))) = false ->
  hd false (tl (tl (tl (tl l)))) = false ->
  hd false (tl (tl (tl (tl (tl l))))) = false ->
  answered 6 l = true.
Proof.
  intros F0 F1 F2 F3 F4 F5.
  rewrite !answered_S, F0, F1, F2, F3, F4, F5. reflexivity.
Qed.

Lemma submit_ready_intro req st now p ps t ts :
  negb (isEmpty (apply_validationResult req)) = false ->
  negb (userType (aq_user req) =? "technician")%string = false ->
  (List.length (fst (exec now (SelCvUploaded (userId (aq_user req))) st))
     =? 0)%nat
  || negb (hd false
             (fst (exec now (SelCvUploaded (userId (aq_user req))) st)))
  = false ->
  (List.length
     (fst (exec now (SelOpenProject (projectId_param (aq_body req))) st))
     =? 0)%nat = false ->
  (0 <? List.length
          (fst (exec now
                  (SelExistingApplication (projectId_param (aq_body req))
                     (userId (aq_user req))) st)))%nat = false ->
  project_info_rows st (projectId_param (aq_body req)) = p :: ps ->
  technician_info_rows st (userId (aq_user req)) = t :: ts ->
  submit_ready req st.
Proof.
  intros C C0 C1 C2 C3 Hp Ht. unfold submit_ready.
  rewrite cv_check in C1. rewrite open_check in C2.
  rewrite applied_check in C3. rewrite Hp, Ht.
  repeat split; try discriminate; auto.
  - destruct (apply_validationResult req); [reflexivity | discriminate].
  - apply negb_false_iff in C0. now apply String.eqb_eq.
  - now apply negb_false_iff in C1.
  - destruct (open_project st (projectId_param (aq_body req)));
      [discriminate | discriminate].
Qed.

(** What a run of POST / that answers [201] has done. *)
Lemma submit_created_inv env req w resp :
  let r := post_applications env req w in
  out r = Ret resp ->
  code resp = 201 ->
  submit_ready req (db w)
  /\ answered 6 (db_faults w) = true
  /\ exists p t new,
       hd_error (project_info_rows (db w) (projectId_param (aq_body req)))
         = Some p
       /\ hd_error (technician_info_rows (db w) (userId (aq_user req)))
         = Some t
       /\ notification_inserts_of (evs r)
          = [job_note req p; company_note req p t]
       /\ notifications (db (post r)) = (notifications (db w) ++ new)%list
       /\ recipients new
          = ((if fault_at 6 w then []
              else [(userId (aq_user req), "job_application")])
             ++ (if fault_at 7 w then []
                 else [(pi_company_id p, "new_application")]))%list
       /\ (List.length (mails_of (evs r)) <= 2)%nat
       /\ (isEmailConfigured env = false ->
           mails_of (evs r) = [] /\ outbox (post r) = outbox w).
Proof.
  intros r. subst r. revert resp.
  change (wp (post_applications env req) w (fun o w' es =>
    forall resp, o = Ret resp -> code resp = 201 ->
    submit_ready req (db w)
    /\ answered 6 (db_faults w) = true
    /\ exists p t new,
         hd_error (project_info_rows (db w) (projectId_param (aq_body req)))
           = Some p
         /\ hd_error (technician_info_rows (db w) (userId (aq_user req)))
           = Some t
         /\ notification_inserts_of es
            = [job_note req p; company_note req p t]
         /\ notifications (db w') = (notifications (db w) ++ new)%list
         /\ recipients new
            = ((if fault_at 6 w then []
                else [(userId (aq_user req), "job_application")])
               ++ (if fault_at 7 w then []
                   else [(pi_company_id p, "new_application")]))%list
         /\ (List.length (mails_of es) <= 2)%nat
         /\ (isEmailConfigured env = false ->
             mails_of es = [] /\ outbox w' = outbox w))).
  unfold post_applications. wp_run.
  all: intros resp E E201; inversion E; subst resp; simpl in E201;
    try discriminate; clear E E201.
  all: match goal with
       | Hp : fst (exec _ (SelProjectInfo _) _) = ?p :: _,
         Ht : fst (exec _ (SelTechnicianInfo _) _) = ?t :: _ |- _ =>
           change (project_info_rows (db w) (projectId_param (aq_body req))
                   = p :: r) in Hp;
           change (technician_info_rows (db w) (userId (aq_user req))
                   = t :: r0) in Ht;
           split; [ eapply submit_ready_intro; eassumption | ];
           split; [ apply answered_6; assumption | ];
           exists p, t
       end.
  all: cbn [db_faults answer_query reject_query] in F5, F6.
  all: rewrite fault_at_tl6, fault_at_tl7, F5, F6.
  all: eexists.
  all: split; [rewrite Heqr; reflexivity|].
  all: split; [rewrite Heqr0; reflexivity|].
  all: split;
    [rewrite !notification_inserts_of_app,
       (notification_inserts_of_quiet _ Hq),
       (notification_inserts_of_quiet _ Hq0); reflexivity|].
  all: split;
    [rewrite Hdb0, Hdb;
     first [ reflexivity
           | cbn [db answer_query reject_query exec snd notifications
                    set_notifications];
             rewrite <- app_assoc; reflexivity
           | symmetry; apply app_nil_r ]|].
  all: split; [reflexivity|].
  all: split;
    [rewrite !mails_of_app, !length_app;
     cbn [mails_of flat_map app List.length Nat.add]; lia|].
  all: intros Hc; destruct (U Hc) as [-> Hm1]; destruct (U0 Hc) as [-> Hm2];
    split; [rewrite !mails_of_app, Hm1, Hm2; reflexivity | reflexivity].
Qed.


(** C2 as stated fails: a submission that answers [201] while both
    notification writes are rejected by the store has created no
    Notification row, not two. *)
Lemma submit_success_without_notification_rows :
  let w := Sample.world "pending"
             [false; false; false; false; false; false; true; true] [] in
  let r := post_applications Sample.configured
             (Sample.apply_to (Sample.technician 1) 12) w in
  out r = Ret (created 101)
  /\ notifications (db (post r)) = notifications (db w)
  /\ List.length (notifications (db (post r)))
     <> (List.length (notifications (db w)) + 2)%nat.
Proof. vm_compute. repeat split; discriminate. Qed.

(** C2, amended. Every POST / that answers [201] has attempted exactly two
    notification writes, the first addressed to the submitting technician
    and the second to the company that owns the project; each write the
    store accepts adds one row, so two rows when both are accepted and fewer
    when one is rejected; the run contacts the mail transport at most twice,
    and not at all when the mailer is not configured; and the response is the
    same [201] with the new application id under every mailer configuration
    and every outcome of the transport. *)
Theorem submit_success_fanout env req w resp :
  let r := post_applications env req w in
  out r = Ret resp ->
  code resp = 201 ->
  resp = created (next_application_id (db w))
  /\ (exists p t new,
        hd_error (project_info_rows (db w) (projectId_param (aq_body req)))
          = Some p
        /\ hd_error (technician_info_rows (db w) (userId (aq_user req)))
          = Some t
        /\ notification_inserts_of (evs r)
           = [job_note req p; company_note req p t]
        /\ notifications (db (post r)) = (notifications (db w) ++ new)%list
        /\ recipients new
           = ((if fault_at 6 w then []
               else [(userId (aq_user req), "job_application")])
              ++ (if fault_at 7 w then []
                  else [(pi_company_id p, "new_application")]))%list
        /\ (List.length (mails_of (evs r)) <= 2)%nat
        /\ (isEmailConfigured env = false ->
            mails_of (evs r) = [] /\ outbox (post r) = outbox w))
  /\ (forall env' smtpf,
        out (post_applications env' req (with_faults w (db_faults w) smtpf))
        = Ret resp).
Proof.
  intros r Hout H201.
  destruct (submit_created_inv env req w resp Hout H201) as (Hready & HA & Hfan).
  destruct (submit_created_intro env req w Hready HA) as [Hresp _].
  fold r in Hresp. rewrite Hresp in Hout. injection Hout as <-.
  split; [reflexivity|]. split; [exact Hfan|].
  intros env' smtpf.
  exact (proj1 (submit_created_intro env' req
                  (with_faults w (db_faults w) smtpf) Hready HA)).
Qed.

Lemma submit_success_fanout_witness :
  created 101 = created (next_application_id (Sample.store "pending"))
  /\ forall env' smtpf,
       out (post_applications env'
              (Sample.apply_to (Sample.technician 1) 12)
              (Sample.world "pending" [] smtpf))
       = Ret (created 101).
Proof.
  destruct (submit_success_fanout Sample.unconfigured
              (Sample.apply_to (Sample.technician 1) 12)
              (Sample.world "pending" [] []) (created 101)
              eq_refl eq_refl) as (H1 & _ & H3).
  split; [exact H1 | exact H3].
Defined.

(* ===================================================================== *)
(** * PUT /:id/status                                                     *)
(* ===================================================================== *)

Lemma status_valid_not_empty req :
  status_validationResult req = [] ->
  negb (isEmpty (status_validationResult req)) = false.
Proof. intros ->. reflexivity. Qed.

Lemma status_owner_check req row :
  userType (sq_user req) = "company" ->
  sr_company_id row = userId (sq_user req) ->
  negb (userType (sq_user req) =? "company")%string
  || negb (sr_company_id row =? userId (sq_user req)) = false.
Proof. intros -> ->. rewrite Z.eqb_refl. reflexivity. Qed.

Lemma status_stranger_check req row :
  userType (sq_user req) <> "company"
  \/ sr_company_id row <> userId (sq_user req) ->
  negb (userType (sq_user req) =? "company")%string
  || negb (sr_company_id row =? userId (sq_user req)) = true.
Proof.
  intros [H|H].
  - destruct (userType (sq_user req) =? "company")%string eqn:E;
      [apply String.eqb_eq in E; contradiction | reflexivity].
  - apply Z.eqb_neq in H. rewrite H. apply orb_true_r.
Qed.

Lemma update_status_sets now s id a :
  pa_id a = id -> pa_status (update_status now s id a) = s.
Proof. intros H. unfold update_status. rewrite H, Z.eqb_refl. reflexivity. Qed.

Lemma update_status_keeps_id now s id a :
  pa_id (update_status now s id a) = pa_id a.
Proof. unfold update_status. destruct (pa_id a =? id); reflexivity. Qed.

Lemma fault_at_tl2 w : fault_at 2 w = hd false (tl (tl (db_faults w))).
Proof. unfold fault_at. rewrite !nth_tl. apply nth_hd. Qed.

(** C6. On an application that exists, PUT /:id/status answers [403
    Forbidden] whenever the requester is not of role company or is not the
    company that owns the application's project; the store is then the store
    before the call (so the status and every other field of the row are
    untouched, and no Notification row is added), and the only statement
    issued is the lookup.  The body has passed validation and the lookup is
    answered by the database. *)
Theorem status_change_forbidden req w row rest :
  status_validationResult req = [] ->
  answered 1 (db_faults w) = true ->
  status_rows (db w) (sq_id req) = row :: rest ->
  userType (sq_user req) <> "company"
  \/ sr_company_id row <> userId (sq_user req) ->
  let r := put_status req w in
  out r = Ret forbidden_status
  /\ db (post r) = db w
  /\ outbox (post r) = outbox w
  /\ queries_of (evs r) = [SelApplicationForStatus (sq_id req)]
  /\ mails_of (evs r) = [].
Proof.
  intros Hv HA Hrow Hno r. subst r.
  apply answered_S_inv in HA as [F0 _].
  change (wp (put_status req) w (fun o w' es =>
    o = Ret forbidden_status /\ db w' = db w /\ outbox w' = outbox w
    /\ queries_of es = [SelApplicationForStatus (sq_id req)]
    /\ mails_of es = [])).
  unfold put_status. apply wp_try_catch. cbv zeta.
  wp_else; [exact (status_valid_not_empty _ Hv)|].
  wp_query_ok F0.
  change (fst (exec (clock w) (SelApplicationForStatus (sq_id req)) (db w)))
    with (status_rows (db w) (sq_id req)).
  rewrite Hrow. cbv iota.
  wp_then; [exact (status_stranger_check _ _ Hno)|].
  repeat split.
Qed.

Lemma status_change_forbidden_witness :
  let r := put_status (Sample.set_status (Sample.company 4) 100 "accepted")
             (Sample.world "pending" [] []) in
  out r = Ret forbidden_status
  /\ db (post r) = Sample.store "pending"
  /\ outbox (post r) = []
  /\ queries_of (evs r) = [SelApplicationForStatus 100]
  /\ mails_of (evs r) = [].
Proof.
  apply (status_change_forbidden
           (Sample.set_status (Sample.company 4) 100 "accepted")
           (Sample.world "pending" [] [])
           {| sr_app := Sample.app100 "pending";
              sr_title := "Instalacion HVAC"; sr_company_id := 2;
              sr_technician_name := "Ana Quispe";
              sr_technician_email := "ana@example.pe" |} []).
  - reflexivity.
  - reflexivity.
  - reflexivity.
  - right. simpl. lia.
Defined.

(** C7 as stated fails: the owning company sends [withdrawn], which lies
    outside {accepted, rejected}; the call answers [200] and the application
    takes that status. *)
Lemma status_withdrawn_is_accepted :
  let req := Sample.set_status (Sample.company 2) 100 "withdrawn" in
  let r := put_status req (Sample.world "accepted" [] []) in
  ~ In (status req) ["accepted"; "rejected"]
  /\ out r = Ret (status_updated "withdrawn")
  /\ map pa_status (project_applications (db (post r))) = ["withdrawn"].
Proof.
  vm_compute. repeat split. intros [H|[H|[]]]; discriminate.
Qed.

Lemma isIn_spec values s : isIn values s = true <-> In s values.
Proof.
  unfold isIn. rewrite existsb_exists. split.
  - intros (x & Hin & E). apply String.eqb_eq in E. now subst.
  - intros H. exists s. split; [exact H | apply String.eqb_refl].
Qed.

(** A number never reads as one of the four statuses. *)
Lemma number_text_not_status n : ~ In (nt_text n) status_values.
Proof.
  destruct n as [text ok]. simpl.
  intros [H|[H|[H|[H|[]]]]]; subst text; discriminate ok.
Qed.

(** On a string status, the checks on any body are the checks of
    [status_validationResult]. *)
Lemma raw_validation_on_string req :
  raw_status_validationResult (raw_of req) = status_validationResult req.
Proof.
  unfold raw_status_validationResult, status_validationResult, check_isIn,
    status_values.
  cbn [raw_of rq_status rq_message validated_values flat_map toString
       toString_shallow js_String].
  rewrite app_nil_r. reflexivity.
Qed.

(** On a string status, the route on any body runs as [put_status]. *)
Lemma put_status_route_on_string update_other req w :
  put_status_route update_other (raw_of req) w = as_reply (put_status req w).
Proof.
  unfold put_status_route, put_status, try_catch, bind.
  rewrite raw_validation_on_string.
  cbn [raw_of rq_user rq_id rq_status rq_message].
  destruct (negb (isEmpty (status_validationResult req))); [reflexivity|].
  destruct (query (SelApplicationForStatus (sq_id req)) w)
    as [[rows|e] w1 es1]; [|reflexivity].
  destruct rows as [|application rest]; [reflexivity|].
  destruct (negb (userType (sq_user req) =? "company")%string
            || negb (sr_company_id application =? userId (sq_user req)));
    [reflexivity|].
  destruct (query (UpdStatus (status req) (sq_id req)) w1)
    as [[u|e] w2 es2]; [|reflexivity].
  destruct (call ("createApplicationStatusNotification" :: module_scope)
              "createApplicationStatusNotification"
              (createApplicationStatusNotification
                 (pa_technician_id (sr_app application))
                 (pa_project_id (sr_app application))
                 (sr_title application) (status req)) w2)
    as [[n|e] w3 es3]; reflexivity.
Qed.

(** The [isIn] check on an array is silent when every element reads as one
    of the values, the empty array included. *)
Lemma check_isIn_elements values msg elements :
  check_isIn values msg (Some (JArray elements)) = []
  <-> Forall (fun e => In (toString (Some e)) values) elements.
Proof.
  unfold check_isIn. cbn [validated_values].
  induction elements as [|e rest IH]; cbn [map flat_map].
  - split; [constructor | reflexivity].
  - destruct (isIn values (toString (Some e))) eqn:E.
    + apply isIn_spec in E. cbn [app]. rewrite IH. split.
      * intros H. constructor; assumption.
      * intros H. inversion H. assumption.
    + split; [discriminate|].
      intros H. inversion H as [|? ? Hin _]. apply isIn_spec in Hin.
      congruence.
Qed.

(** On anything but an array it looks at the one value. *)
Lemma check_isIn_single values msg value :
  validated_values value = [value] ->
  (check_isIn values msg value = [] <-> In (toString value) values).
Proof.
  intros Hv. unfold check_isIn. rewrite Hv. cbn [flat_map].
  rewrite app_nil_r.
  destruct (isIn values (toString value)) eqn:E.
  - apply isIn_spec in E. tauto.
  - split; [discriminate|]. intros H. apply isIn_spec in H. congruence.
Qed.

(** The status check is silent on the accepted statuses and on no other. *)
Lemma status_check_spec value :
  check_isIn status_values "Estado inválido" value = []
  <-> status_accepted value.
Proof.
  unfold status_accepted.
  destruct value as [[ | b | n | s | elements | members]|].
  6: { rewrite check_isIn_single by reflexivity. split.
       - cbn. intros [H|[H|[H|[H|[]]]]]; discriminate.
       - intros [(s & H & _)|(l & H & _)]; discriminate. }
  6: { rewrite check_isIn_single by reflexivity. split.
       - cbn. intros [H|[H|[H|[H|[]]]]]; discriminate.
       - intros [(s & H & _)|(l & H & _)]; discriminate. }
  5: { rewrite check_isIn_elements. split.
       - intros H. right. exists elements. split; [reflexivity | exact H].
       - intros [(s & H & _)|(l & H & F)]; [discriminate|].
         injection H as ->. exact F. }
  4: { rewrite check_isIn_single by reflexivity. cbn [toString toString_shallow js_String].
       split.
       - intros H. left. exists s. split; [reflexivity | exact H].
       - intros [(s' & H & Hin)|(l & H & _)]; [|discriminate].
         injection H as ->. exact Hin. }
  3: { rewrite check_isIn_single by reflexivity. cbn [toString toString_shallow js_String].
       split.
       - intros H. destruct (number_text_not_status n H).
       - intros [(s & H & _)|(l & H & _)]; discriminate. }
  2: { rewrite check_isIn_single by reflexivity. split.
       - destruct b; cbn; intros [H|[H|[H|[H|[]]]]]; discriminate.
       - intros [(s & H & _)|(l & H & _)]; discriminate. }
  rewrite check_isIn_single by reflexivity. split.
  - cbn. intros [H|[H|[H|[H|[]]]]]; discriminate.
  - intros [(s & H & _)|(l & H & _)]; discriminate.
Qed.

(** C7, amended. PUT /:id/status accepts a status only from the set
    {pending, accepted, rejected, withdrawn}, the check being made on each
    element when the body holds an array: a request whose status is neither
    one of the four strings nor an array whose elements all read as one of
    them (a missing status, another string, a number, a boolean, [null], an
    object, an array with an element outside the set) is answered [400] with
    the validation errors, and the run touches nothing (no statement is
    issued, the world is unchanged); the status check lets through exactly
    the accepted statuses. *)
Theorem status_outside_enum_rejected update_other req w :
  ~ status_accepted (rq_status req) ->
  put_status_route update_other req w
  = {| out := Ret (Plain (invalid_status (raw_status_validationResult req)));
       post := w; evs := [] |}
  /\ In "Estado inválido" (raw_status_validationResult req)
  /\ (forall value,
        status_accepted value
        <-> check_isIn status_values "Estado inválido" value = []).
Proof.
  intros Hout.
  assert (Herr : exists e rest,
             check_isIn status_values "Estado inválido" (rq_status req)
             = e :: rest).
  { destruct (check_isIn status_values "Estado inválido" (rq_status req))
      as [|e rest] eqn:E; [|eauto].
    apply status_check_spec in E. contradiction. }
  destruct Herr as (e & rest & Herr).
  assert (He : In "Estado inválido"
                 (check_isIn status_values "Estado inválido" (rq_status req))).
  { unfold check_isIn in *.
    assert (H : In e (flat_map
                        (fun v => if isIn status_values (toString v)
                                  then [] else ["Estado inválido"])
                        (validated_values (rq_status req)))).
    { rewrite Herr. left. reflexivity. }
    apply in_flat_map in H. destruct H as (v & _ & Hin).
    destruct (isIn status_values (toString v)); [destruct Hin|].
    destruct Hin as [<-|[]]. rewrite Herr. left. reflexivity. }
  split; [|split].
  - unfold put_status_route, try_catch, raw_status_validationResult.
    rewrite Herr. reflexivity.
  - unfold raw_status_validationResult. apply in_or_app. left. exact He.
  - intros value. symmetry. apply status_check_spec.
Qed.

Lemma status_outside_enum_rejected_witness :
  let req := {| rq_user := Sample.company 2; rq_id := 100;
                rq_status := Some (JArray [JString "accepted";
                                           JString "archived"]);
                rq_message := Missing |} in
  put_status_route (fun _ _ => ret tt) req (Sample.world "pending" [] [])
  = {| out := Ret (Plain (invalid_status ["Estado inválido"]));
       post := Sample.world "pending" [] []; evs := [] |}.
Proof.
  refine (proj1 (status_outside_enum_rejected (fun _ _ => ret tt)
                   {| rq_user := Sample.company 2; rq_id := 100;
                      rq_status := Some (JArray [JString "accepted";
                                                 JString "archived"]);
                      rq_message := Missing |}
                   (Sample.world "pending" [] []) _)).
  intros [(s & H & _)|(l & H & F)]; [discriminate|].
  injection H as <-.
  inversion F as [|? ? _ F']. inversion F' as [|? ? Hin _].
  simpl in Hin. destruct Hin as [E|[E|[E|[E|[]]]]]; discriminate.
Defined.

(** An array of allowed words, and the empty array, pass the checks: the
    handler goes on to the UPDATE with the array, answers [500] when the
    driver rejects it, and echoes the array when the driver lets it
    through. *)
Lemma array_status_passes_the_checks :
  let req elements :=
    {| rq_user := Sample.company 2; rq_id := 100;
       rq_status := Some (JArray elements); rq_message := Missing |} in
  let w := Sample.world "pending" [] [] in
  let rejecting : option JsonValue -> Z -> M unit :=
    fun _ _ => throw (TypeError "status is not a string") in
  raw_status_validationResult (req [JString "accepted"]) = []
  /\ raw_status_validationResult (req []) = []
  /\ out (put_status_route rejecting (req [JString "accepted"]) w)
     = Ret (Plain status_internal_error)
  /\ out (put_status_route (fun _ _ => ret tt) (req []) w)
     = Ret (Echo "Estado de aplicación actualizado exitosamente"
              (Some (JArray []))).
Proof.
  vm_compute. repeat split.
Qed.

(** What an authorized status change does, whatever the notification write
    then does. *)
Lemma status_updated_intro req w row rest :
  status_validationResult req = [] ->
  answered 2 (db_faults w) = true ->
  status_rows (db w) (sq_id req) = row :: rest ->
  userType (sq_user req) = "company" ->
  sr_company_id row = userId (sq_user req) ->
  let r := put_status req w in
  out r = Ret (status_updated (status req))
  /\ project_applications (db (post r))
     = map (update_status (clock w) (status req) (sq_id req))
         (project_applications (db w))
  /\ queries_of (evs r)
     = [SelApplicationForStatus (sq_id req);
        UpdStatus (status req) (sq_id req);
        status_note req row]
  /\ notifications (db (post r))
     = (notifications (db w)
        ++ (if fault_at 2 w then [] else [status_notification req row w]))%list
  /\ mails_of (evs r) = []
  /\ outbox (post r) = outbox w.
Proof.
  intros Hv HA Hrow Hc Hown r. subst r.
  apply answered_S_inv in HA as [F0 HA].
  apply answered_S_inv in HA as [F1 _].
  rewrite fault_at_tl2.
  change (wp (put_status req) w (fun o w' es =>
    o = Ret (status_updated (status req))
    /\ project_applications (db w')
       = map (update_status (clock w) (status req) (sq_id req))
           (project_applications (db w))
    /\ queries_of es
       = [SelApplicationForStatus (sq_id req);
          UpdStatus (status req) (sq_id req);
          status_note req row]
    /\ notifications (db w')
       = (notifications (db w)
          ++ (if hd false (tl (tl (db_faults w))) then []
              else [status_notification req row w]))%list
    /\ mails_of es = []
    /\ outbox w' = outbox w)).
  unfold put_status. apply wp_try_catch. cbv zeta.
  wp_else; [exact (status_valid_not_empty _ Hv)|].
  wp_query_ok F0.
  change (fst (exec (clock w) (SelApplicationForStatus (sq_id req)) (db w)))
    with (status_rows (db w) (sq_id req)).
  rewrite Hrow. cbv iota.
  wp_else; [exact (status_owner_check _ _ Hc Hown)|].
  wp_query_ok F1.
  wp_run.
  all: cbn [db_faults answer_query reject_query] in F; rewrite F.
  all: repeat split.
  symmetry. apply app_nil_r.
Qed.

(** C8. PUT /:id/status puts no condition on the status the application
    has: whatever it is, an authorized call answers [200], gives every row
    with that id the requested status, and attempts exactly one notification
    write, addressed to the application's technician, of type
    [application_status], whose title and message are chosen by the new
    status (accepted, rejected and withdrawn have their own text, anything
    else the generic one); the write adds its row when the store accepts it.
    The mail transport is not contacted.  The body has passed validation and
    the database answers the lookup and the UPDATE. *)
Theorem status_change_overwrites req w row rest :
  status_validationResult req = [] ->
  answered 2 (db_faults w) = true ->
  status_rows (db w) (sq_id req) = row :: rest ->
  userType (sq_user req) = "company" ->
  sr_company_id row = userId (sq_user req) ->
  let r := put_status req w in
  out r = Ret (status_updated (status req))
  /\ (forall a, In a (project_applications (db (post r))) ->
                pa_id a = sq_id req -> pa_status a = status req)
  /\ project_applications (db (post r))
     = map (update_status (clock w) (status req) (sq_id req))
         (project_applications (db w))
  /\ notification_inserts_of (evs r) = [status_note req row]
  /\ writes_of (evs r)
     = [UpdStatus (status req) (sq_id req); status_note req row]
  /\ notifications (db (post r))
     = (notifications (db w)
        ++ (if fault_at 2 w then [] else [status_notification req row w]))%list
  /\ mails_of (evs r) = []
  /\ outbox (post r) = outbox w
  /\ (forall title,
        status_title "accepted" = "¡Aplicación Aceptada!"
        /\ status_title "rejected" = "Aplicación Rechazada"
        /\ status_title "withdrawn" = "Aplicación Retirada"
        /\ status_title "pending" = "Estado de Aplicación Actualizado"
        /\ status_message "accepted" title
           = "Tu aplicación para el proyecto " ++ dq ++ title ++ dq
             ++ " ha sido aceptada. ¡Felicidades!"
        /\ status_message "rejected" title
           = "Tu aplicación para el proyecto " ++ dq ++ title ++ dq
             ++ " no ha sido seleccionada en esta ocasión."
        /\ status_message "withdrawn" title
           = "Has retirado tu aplicación para el proyecto " ++ dq ++ title
             ++ dq ++ "."
        /\ status_message "pending" title
           = "El estado de tu aplicación para el proyecto " ++ dq ++ title
             ++ dq ++ " ha sido actualizado.").
Proof.
  intros Hv HA Hrow Hc Hown r.
  destruct (status_updated_intro req w row rest Hv HA Hrow Hc Hown)
    as (Hout & Happs & Hq & Hn & Hm & Hbox).
  fold r in Hout, Happs, Hq, Hn, Hm, Hbox.
  repeat match goal with |- _ /\ _ => split end; try assumption.
  - intros a Hin Hid. rewrite Happs in Hin. apply in_map_iff in Hin.
    destruct Hin as (a0 & <- & _).
    rewrite update_status_keeps_id in Hid.
    now apply update_status_sets.
  - unfold notification_inserts_of. rewrite Hq. reflexivity.
  - unfold writes_of. rewrite Hq. reflexivity.
  - intros title. repeat split.
Qed.

Lemma status_change_overwrites_witness :
  let r := put_status (Sample.set_status (Sample.company 2) 100 "rejected")
             (Sample.world "accepted" [] []) in
  out r = Ret (status_updated "rejected").
Proof.
  refine (proj1 (status_change_overwrites
                   (Sample.set_status (Sample.company 2) 100 "rejected")
                   (Sample.world "accepted" [] [])
                   {| sr_app := Sample.app100 "accepted";
                      sr_title := "Instalacion HVAC"; sr_company_id := 2;
                      sr_technician_name := "Ana Quispe";
                      sr_technician_email := "ana@example.pe" |} []
                   _ _ _ _ _)); reflexivity.
Defined.

(** What a run of PUT /:id/status that answers [200] has passed. *)
Lemma status_updated_inv req w resp :
  out (put_status req w) = Ret resp ->
  code resp = 200 ->
  status_ready req (db w) /\ answered 2 (db_faults w) = true.
Proof.
  revert resp.
  change (wp (put_status req) w (fun o _ _ =>
    forall resp, o = Ret resp -> code resp = 200 ->
    status_ready req (db w) /\ answered 2 (db_faults w) = true)).
  unfold put_status. wp_run.
  all: intros resp E E200; inversion E; subst resp; simpl in E200;
    try discriminate; clear E E200.
  all: cbn [db_faults answer_query reject_query] in F0.
  all: split; [|rewrite !answered_S, F, F0; reflexivity].
  all: split;
    [destruct (status_validationResult req); [reflexivity | discriminate]|].
  all: apply orb_false_iff in C0 as [Ct Co];
    apply negb_false_iff in Ct, Co;
    apply String.eqb_eq in Ct; apply Z.eqb_eq in Co; eauto.
Qed.

(* ===================================================================== *)
(** * Failures after the primary write                                    *)
(* ===================================================================== *)

(** C4. Take a submission or a status change that answers its success code
    when nothing fails.  Run it again in the same world with the same
    requests answered up to the fan-out (the checks, the primary write and,
    for a submission, the two reads that feed the templates), and with any
    outcome at all for the notification writes, any mailer configuration and
    any outcome of the mail transport: the response is the same success
    response, and the application table is the one the undisturbed run
    leaves. *)
Theorem fanout_failures_are_swallowed env env' op w dbf smtpf resp :
  let ok := run_op env op (with_faults w [] []) in
  let any :=
    run_op env' op
      (with_faults w (repeat false (queries_before_fanout op) ++ dbf) smtpf) in
  out ok = Ret resp ->
  code resp = success_code op ->
  out any = Ret resp
  /\ project_applications (db (post any))
     = project_applications (db (post ok)).
Proof.
  intros ok any Hok Hcode. subst ok any.
  destruct op as [req|req]; cbn [run_op queries_before_fanout success_code] in *.
  - destruct (submit_created_inv env req _ resp Hok Hcode) as (Hready & _ & _).
    cbn [db with_faults] in Hready.
    destruct (submit_created_intro env req (with_faults w [] []) Hready
                eq_refl) as [Ho1 Ha1].
    destruct (submit_created_intro env' req
                (with_faults w (repeat false 6 ++ dbf) smtpf) Hready
                (answered_repeat 6 dbf)) as [Ho2 Ha2].
    rewrite Ho1 in Hok. injection Hok as <-.
    split; [exact Ho2 | rewrite Ha1, Ha2; reflexivity].
  - destruct (status_updated_inv req _ resp Hok Hcode)
      as ((Hv & row & rest & Hrow & Hc & Hown) & _).
    cbn [db with_faults] in Hrow.
    destruct (status_updated_intro req (with_faults w [] []) row rest
                Hv eq_refl Hrow Hc Hown) as (Ho1 & Ha1 & _).
    destruct (status_updated_intro req
                (with_faults w (repeat false 2 ++ dbf) smtpf) row rest
                Hv (answered_repeat 2 dbf) Hrow Hc Hown) as (Ho2 & Ha2 & _).
    rewrite Ho1 in Hok. injection Hok as <-.
    split; [exact Ho2 | rewrite Ha1, Ha2; reflexivity].
Qed.

Lemma fanout_failures_are_swallowed_witness :
  let op := OpSubmit (Sample.apply_to (Sample.technician 1) 12) in
  let any :=
    run_op Sample.unconfigured op
      (Sample.world "pending"
         [false; false; false; false; false; false; true; true]
         [true; true]) in
  out any = Ret (created 101)
  /\ project_applications (db (post any))
     = project_applications
         (db (post (run_op Sample.configured op
                      (Sample.world "pending" [] [])))).
Proof.
  exact (fanout_failures_are_swallowed Sample.configured Sample.unconfigured
           (OpSubmit (Sample.apply_to (Sample.technician 1) 12))
           (Sample.world "pending" [] []) [true; true] [true; true]
           (created 101) eq_refl eq_refl).
Defined.

(* ===================================================================== *)
(** * PUT /:id/withdraw                                                   *)
(* ===================================================================== *)

Lemma own_rows_none st id uid :
  not_own_application st id uid -> own_rows st id uid = [].
Proof.
  unfold not_own_application, own_rows. intros H.
  induction (project_applications st) as [|a l IH]; [reflexivity|].
  simpl.
  destruct ((pa_id a =? id) && (pa_technician_id a =? uid)) eqn:E.
  - apply andb_true_iff in E as [E1 E2].
    apply Z.eqb_eq in E1, E2.
    exfalso. exact (H a (or_introl eq_refl) E1 E2).
  - apply IH. intros a' Hin. apply H. now right.
Qed.

(** C9 as stated fails: a requester whose id is that of the application's
    technician but whose role is not technician is answered [403], not
    [404]. *)
Lemma withdraw_wrong_role_is_forbidden :
  let req := {| wq_user := {| userId := 1; userType := "company" |};
                wq_id := 100 |} in
  let r := put_withdraw req (Sample.world "pending" [] []) in
  userType (wq_user req) <> "technician"
  /\ out r = Ret withdraw_forbidden
  /\ code withdraw_forbidden = 403
  /\ out r <> Ret withdraw_not_found.
Proof. vm_compute. repeat split; discriminate. Qed.

(** C9, amended. PUT /:id/withdraw looks the application up by id and by
    the requester's id together: a requester who is not the technician of an
    application with this id (there is none, or it belongs to someone else)
    is answered [404 NotFound] whatever their role, and the store is
    untouched; a requester whose id does match such an application but whose
    role is not technician is answered [403 Forbidden], the store again
    untouched.  The lookup is answered by the database. *)
Theorem withdraw_hides_foreign_applications req w :
  answered 1 (db_faults w) = true ->
  let r := put_withdraw req w in
  (not_own_application (db w) (wq_id req) (userId (wq_user req)) ->
   out r = Ret withdraw_not_found
   /\ db (post r) = db w /\ writes_of (evs r) = [])
  /\ (own_rows (db w) (wq_id req) (userId (wq_user req)) <> [] ->
      userType (wq_user req) <> "technician" ->
      out r = Ret withdraw_forbidden
      /\ db (post r) = db w /\ writes_of (evs r) = []).
Proof.
  intros HA r. subst r.
  apply answered_S_inv in HA as [F0 _].
  split.
  - intros Hno. apply own_rows_none in Hno.
    change (wp (put_withdraw req) w (fun o w' es =>
      o = Ret withdraw_not_found /\ db w' = db w /\ writes_of es = [])).
    unfold put_withdraw. apply wp_try_catch. cbv zeta.
    wp_query_ok F0.
    change (fst (exec (clock w)
                   (SelOwnApplication (wq_id req) (userId (wq_user req)))
                   (db w)))
      with (own_rows (db w) (wq_id req) (userId (wq_user req))).
    rewrite Hno. cbv iota. repeat split.
  - intros Hrows Hrole.
    change (wp (put_withdraw req) w (fun o w' es =>
      o = Ret withdraw_forbidden /\ db w' = db w /\ writes_of es = [])).
    unfold put_withdraw. apply wp_try_catch. cbv zeta.
    wp_query_ok F0.
    change (fst (exec (clock w)
                   (SelOwnApplication (wq_id req) (userId (wq_user req)))
                   (db w)))
      with (own_rows (db w) (wq_id req) (userId (wq_user req))).
    destruct (own_rows (db w) (wq_id req) (userId (wq_user req)))
      as [|row rest]; [contradiction|]. cbv iota.
    wp_then.
    { destruct (userType (wq_user req) =? "technician")%string eqn:E;
        [apply String.eqb_eq in E; contradiction | reflexivity]. }
    repeat split.
Qed.

Lemma withdraw_hides_foreign_applications_witness :
  let r := put_withdraw (Sample.withdraw (Sample.technician 3) 100)
             (Sample.world "pending" [] []) in
  out r = Ret withdraw_not_found
  /\ db (post r) = Sample.store "pending" /\ writes_of (evs r) = [].
Proof.
  refine (proj1 (withdraw_hides_foreign_applications
                   (Sample.withdraw (Sample.technician 3) 100)
                   (Sample.world "pending" [] []) eq_refl) _).
  intros a [<-|[]] _. discriminate.
Defined.

(** A withdrawal of an application that is not pending is refused with
    [InvalidState(not_pending)] and leaves the store as it was. *)
Lemma withdraw_not_pending req w row rest :
  answered 1 (db_faults w) = true ->
  own_rows (db w) (wq_id req) (userId (wq_user req)) = row :: rest ->
  userType (wq_user req) = "technician" ->
  pa_status (wr_app row) <> "pending" ->
  let r := put_withdraw req w in
  out r = Ret not_pending /\ db (post r) = db w.
Proof.
  intros HA Hrows Hrole Hst r. subst r.
  apply answered_S_inv in HA as [F0 _].
  change (wp (put_withdraw req) w (fun o w' _ =>
    o = Ret not_pending /\ db w' = db w)).
  unfold put_withdraw. apply wp_try_catch. cbv zeta.
  wp_query_ok F0.
  change (fst (exec (clock w)
                 (SelOwnApplication (wq_id req) (userId (wq_user req)))
                 (db w)))
    with (own_rows (db w) (wq_id req) (userId (wq_user req))).
  rewrite Hrows. cbv iota.
  wp_else; [rewrite Hrole; reflexivity|].
  wp_then.
  { destruct (pa_status (wr_app row) =? "pending")%string eqn:E;
      [apply String.eqb_eq in E; contradiction | reflexivity]. }
  repeat split.
Qed.

(** A withdrawal of a pending application by its technician: the UPDATE is
    issued, then the call of [createApplicationStatusNotification] finds no
    such name in scope, and the handler's [catch] answers [500].  No
    notification write is attempted. *)
Lemma withdraw_pending req w row rest :
  answered 2 (db_faults w) = true ->
  own_rows (db w) (wq_id req) (userId (wq_user req)) = row :: rest ->
  userType (wq_user req) = "technician" ->
  pa_status (wr_app row) = "pending" ->
  let r := put_withdraw req w in
  out r = Ret withdraw_internal_error
  /\ project_applications (db (post r))
     = map (update_status (clock w) "withdrawn" (wq_id req))
         (project_applications (db w))
  /\ notifications (db (post r)) = notifications (db w)
  /\ notification_inserts_of (evs r) = [].
Proof.
  intros HA Hrows Hrole Hst r. subst r.
  apply answered_S_inv in HA as [F0 HA].
  apply answered_S_inv in HA as [F1 _].
  change (wp (put_withdraw req) w (fun o w' es =>
    o = Ret withdraw_internal_error
    /\ project_applications (db w')
       = map (update_status (clock w) "withdrawn" (wq_id req))
           (project_applications (db w))
    /\ notifications (db w') = notifications (db w)
    /\ notification_inserts_of es = [])).
  unfold put_withdraw. apply wp_try_catch. cbv zeta.
  wp_query_ok F0.
  change (fst (exec (clock w)
                 (SelOwnApplication (wq_id req) (userId (wq_user req)))
                 (db w)))
    with (own_rows (db w) (wq_id req) (userId (wq_user req))).
  rewrite Hrows. cbv iota.
  wp_else; [rewrite Hrole; reflexivity|].
  wp_else; [rewrite Hst; reflexivity|].
  wp_query_ok F1.
  wp_run. repeat split.
Qed.

(** C5 (the code departs from the claim). Ana, a technician, withdraws her
    own pending application 100: the row becomes [withdrawn], but the
    response is [500], not a success, and no notification is written or even
    attempted. *)
Theorem withdraw_pending_answers_500 :
  let r := put_withdraw (Sample.withdraw (Sample.technician 1) 100)
             (Sample.world "pending" [] []) in
  out r = Ret withdraw_internal_error
  /\ out r <> Ret withdrawn_ok
  /\ map pa_status (project_applications (db (post r))) = ["withdrawn"]
  /\ notifications (db (post r)) = []
  /\ queries_of (evs r) = [SelOwnApplication 100 1; UpdWithdrawn 100].
Proof. vm_compute. repeat split. discriminate. Qed.

(* ===================================================================== *)
(** * The mailer without credentials                                      *)
(* ===================================================================== *)

Lemma credentials_absent_not_configured env :
  credentials_absent env -> isEmailConfigured env = false.
Proof.
  unfold credentials_absent, isEmailConfigured, validateEmailConfig.
  intros [H|H]; simpl; rewrite H; simpl;
    [reflexivity | destruct (truthy (env "EMAIL_USER")); reflexivity].
Qed.

(** C10. When the mail credentials are absent, each of the two send
    operations returns, as a value and without throwing, the failure
    [{success: false, error: 'Email no configurado'}]; it contacts no
    transport, and leaves the world, mail ledger included, as it was. *)
Theorem unconfigured_mailer_short_circuits env :
  credentials_absent env ->
  forall w,
    (forall d,
       let r := sendJobApplicationEmail env d w in
       out r = Ret not_configured /\ post r = w /\ mails_of (evs r) = [])
    /\ (forall email name title,
          let r := sendApplicationConfirmationEmail env email name title w in
          out r = Ret not_configured /\ post r = w /\ mails_of (evs r) = []).
Proof.
  intros Habs w. apply credentials_absent_not_configured in Habs.
  split.
  - intros d r. subst r. rewrite sendJobApplicationEmail_run, Habs.
    repeat split.
  - intros email name title r. subst r.
    rewrite sendApplicationConfirmationEmail_run, Habs. repeat split.
Qed.

Lemma unconfigured_mailer_short_circuits_witness :
  let r := sendApplicationConfirmationEmail Sample.unconfigured
             "ana@example.pe" "Ana Quispe" "Fibra optica"
             (Sample.world "pending" [] []) in
  out r = Ret not_configured
  /\ post r = Sample.world "pending" [] []
  /\ mails_of (evs r) = [].
Proof.
  refine (proj2 (unconfigured_mailer_short_circuits Sample.unconfigured _
                   (Sample.world "pending" [] []))
            "ana@example.pe" "Ana Quispe" "Fibra optica").
  left. reflexivity.
Defined.

(* ===================================================================== *)
(** * What the lifecycle routes keep                                      *)
(* ===================================================================== *)

Lemma reference_tables_exec now s st :
  reference_tables (snd (exec now s st)) = reference_tables st.
Proof. destruct s; reflexivity. Qed.

(** Closing a leaf of a stepped handler: the store of the final world is
    reached from the initial one by statements only. *)
Ltac store_chain keep :=
  repeat match goal with
         | H : db ?w' = _ |- context [db ?w'] => rewrite H
         end;
  cbn [db answer_query reject_query];
  repeat first [ assumption | reflexivity | apply keep | rewrite keep ].

Lemma post_applications_frame env req w :
  reference_tables (db (post (post_applications env req w)))
  = reference_tables (db w).
Proof.
  change (wp (post_applications env req) w (fun _ w' _ =>
    reference_tables (db w') = reference_tables (db w))).
  unfold post_applications. wp_run.
  all: store_chain reference_tables_exec.
Qed.

Lemma put_status_frame req w :
  reference_tables (db (post (put_status req w))) = reference_tables (db w).
Proof.
  change (wp (put_status req) w (fun _ w' _ =>
    reference_tables (db w') = reference_tables (db w))).
  unfold put_status. wp_run.
  all: store_chain reference_tables_exec.
Qed.

Lemma put_withdraw_frame req w :
  reference_tables (db (post (put_withdraw req w))) = reference_tables (db w).
Proof.
  change (wp (put_withdraw req) w (fun _ w' _ =>
    reference_tables (db w') = reference_tables (db w))).
  unfold put_withdraw. wp_run.
  all: store_chain reference_tables_exec.
Qed.

Lemma sample_store_well_numbered st : well_numbered (Sample.store st).
Proof.
  unfold well_numbered. simpl. repeat split.
  - intros a [<-|[]]. simpl. lia.
  - repeat constructor. intros [].
  - intros n [].
  - constructor.
Qed.

(* ===================================================================== *)
(** * How the lifecycle routes compose                                    *)
(* ===================================================================== *)

Lemma reference_tables_has_cv st st' uid :
  reference_tables st' = reference_tables st -> has_cv st' uid = has_cv st uid.
Proof.
  unfold reference_tables, has_cv, cv_profile. intros H.
  injection H as _ -> _ _. reflexivity.
Qed.

Lemma reference_tables_open_project st st' pid :
  reference_tables st' = reference_tables st ->
  open_project st' pid = open_project st pid.
Proof.
  unfold reference_tables, open_project. intros H.
  injection H as _ _ _ ->. reflexivity.
Qed.

Lemma reference_tables_projects st st' :
  reference_tables st' = reference_tables st -> projects st' = projects st.
Proof. unfold reference_tables. intros H. now injection H. Qed.

Lemma applied_after_insert st' st req w :
  project_applications st'
  = (project_applications st ++ [new_application req w])%list ->
  applied st' (projectId_param (aq_body req)) (userId (aq_user req)) = true.
Proof.
  unfold applied. intros ->. rewrite existsb_app. simpl.
  rewrite !Z.eqb_refl. simpl. apply orb_true_r.
Qed.

(** The duplicate check, with what it leaves behind. *)
Lemma submit_already_applied_run env req w :
  apply_validationResult req = [] ->
  userType (aq_user req) = "technician" ->
  answered 3 (db_faults w) = true ->
  has_cv (db w) (userId (aq_user req)) = true ->
  open_project (db w) (projectId_param (aq_body req)) <> None ->
  applied (db w) (projectId_param (aq_body req)) (userId (aq_user req)) = true ->
  let r := post_applications env req w in
  out r = Ret already_applied /\ db (post r) = db w
  /\ outbox (post r) = outbox w /\ writes_of (evs r) = [].
Proof.
  intros Hv Hr HA Hcv Hop Hap r. subst r.
  apply answered_S_inv in HA as [F0 HA].
  apply answered_S_inv in HA as [F1 HA].
  apply answered_S_inv in HA as [F2 _].
  change (wp (post_applications env req) w (fun o w' es =>
    o = Ret already_applied /\ db w' = db w
    /\ outbox w' = outbox w /\ writes_of es = [])).
  unfold post_applications. apply wp_try_catch.
  wp_else; [exact (submit_valid_not_empty _ Hv)|]. cbv zeta.
  wp_else; [exact (submit_technician_check _ Hr)|].
  wp_query_ok F0.
  wp_else; [rewrite cv_check, Hcv; reflexivity|].
  wp_query_ok F1.
  wp_else; [rewrite open_check; simpl;
            destruct (open_project (db w) (projectId_param (aq_body req)));
            [reflexivity | contradiction]|].
  wp_query_ok F2.
  wp_then; [rewrite applied_check; exact Hap|].
  repeat split.
Qed.

(** X3. A submission that was answered [201] cannot be repeated: the same
    request, sent again on the store the first call left and with its three
    checks answered, is answered [Conflict(already_applied)] and writes
    nothing, under any mailer configuration. *)
Theorem second_submission_conflicts env env' req w w2 resp :
  out (post_applications env req w) = Ret resp ->
  code resp = 201 ->
  db w2 = db (post (post_applications env req w)) ->
  answered 3 (db_faults w2) = true ->
  let r2 := post_applications env' req w2 in
  out r2 = Ret already_applied
  /\ db (post r2) = db w2
  /\ outbox (post r2) = outbox w2
  /\ writes_of (evs r2) = [].
Proof.
  intros Hout H201 Hdb HA.
  destruct (submit_created_inv env req w resp Hout H201)
    as ((Hv & Hr & Hcv & Hop & _) & HA6 & _).
  pose proof (post_applications_frame env req w) as Hframe.
  destruct (submit_created_intro env req w
              (proj1 (submit_created_inv env req w resp Hout H201)) HA6)
    as [_ Happs].
  rewrite <- Hdb in Hframe, Happs.
  apply submit_already_applied_run; try assumption.
  - rewrite (reference_tables_has_cv _ _ _ Hframe). exact Hcv.
  - rewrite (reference_tables_open_project _ _ _ Hframe). exact Hop.
  - eapply applied_after_insert. exact Happs.
Qed.

Lemma second_submission_conflicts_witness :
  let w := Sample.world "pending" [] [] in
  let req := Sample.apply_to (Sample.technician 1) 12 in
  let r2 := post_applications Sample.unconfigured req
              (post (post_applications Sample.configured req w)) in
  out r2 = Ret already_applied
  /\ db (post r2) = db (post (post_applications Sample.configured req w))
  /\ outbox (post r2)
     = outbox (post (post_applications Sample.configured req w))
  /\ writes_of (evs r2) = [].
Proof.
  exact (second_submission_conflicts Sample.configured Sample.unconfigured
           (Sample.apply_to (Sample.technician 1) 12)
           (Sample.world "pending" [] [])
           (post (post_applications Sample.configured
                    (Sample.apply_to (Sample.technician 1) 12)
                    (Sample.world "pending" [] [])))
           (created 101) eq_refl eq_refl eq_refl eq_refl).
Defined.

Lemma update_status_keeps_keys now s id a :
  pa_technician_id (update_status now s id a) = pa_technician_id a
  /\ pa_project_id (update_status now s id a) = pa_project_id a.
Proof. unfold update_status. destruct (pa_id a =? id); split; reflexivity. Qed.

(** The requester's lookup after an UPDATE of statuses: the same rows, each
    application updated. *)
Lemma own_rows_after_update st st' now s id0 id uid :
  projects st' = projects st ->
  project_applications st'
  = map (update_status now s id0) (project_applications st) ->
  own_rows st' id uid
  = map (fun r => {| wr_app := update_status now s id0 (wr_app r);
                     wr_title := wr_title r |})
      (own_rows st id uid).
Proof.
  unfold own_rows. intros -> ->.
  induction (project_applications st) as [|a l IH]; [reflexivity|].
  simpl. rewrite update_status_keeps_id.
  destruct (update_status_keeps_keys now s id0 a) as [-> Hp].
  destruct ((pa_id a =? id) && (pa_technician_id a =? uid)); [|exact IH].
  simpl. rewrite Hp, map_app, IH, map_map. reflexivity.
Qed.

Lemma own_rows_keys st id uid r :
  In r (own_rows st id uid) ->
  pa_id (wr_app r) = id /\ pa_technician_id (wr_app r) = uid.
Proof.
  unfold own_rows. intros H. apply in_flat_map in H as (a & Ha & Hr).
  apply filter_In in Ha as [_ Ha]. apply in_map_iff in Hr as (p & <- & _).
  apply andb_true_iff in Ha as [H1 H2]. simpl.
  split; now apply Z.eqb_eq.
Qed.

Lemma filter_none {A} (p : A -> bool) (l : list A) :
  (forall a, In a l -> p a = false) -> filter p l = [].
Proof.
  induction l as [|a l IH]; [reflexivity|]. intros H. simpl.
  rewrite (H a (or_introl eq_refl)). apply IH. intros b Hb. apply H. now right.
Qed.

Lemma open_project_has_row st pid :
  open_project st pid <> None ->
  filter (fun p => p_id p =? pid) (projects st) <> [].
Proof.
  unfold open_project. intros H.
  destruct (find _ (projects st)) as [p|] eqn:E; [|contradiction].
  apply find_some in E as [Hin Hp]. apply andb_true_iff in Hp as [Hp _].
  intros Hnil.
  assert (Hf : In p (filter (fun p => p_id p =? pid) (projects st)))
    by (apply filter_In; auto).
  rewrite Hnil in Hf. exact Hf.
Qed.

(** X4. What a submission inserts comes back on lookup: after a [201] on a
    well-numbered store, the lookup that PUT /:id/withdraw makes for the
    returned id and the submitting technician finds the new application,
    and it is pending. *)
Theorem submitted_application_is_found env req w resp :
  well_numbered (db w) ->
  let r := post_applications env req w in
  out r = Ret resp ->
  code resp = 201 ->
  exists row rest,
    own_rows (db (post r)) (next_application_id (db w)) (userId (aq_user req))
    = row :: rest
    /\ wr_app row = new_application req w
    /\ pa_status (wr_app row) = "pending"
    /\ json resp
       = JCreated "Aplicación enviada exitosamente" (pa_id (wr_app row)).
Proof.
  intros (Hlt & _) r Hout H201. subst r.
  destruct (submit_created_inv env req w resp Hout H201)
    as (Hready & HA6 & _).
  destruct (submit_created_intro env req w Hready HA6) as [Hresp Happs].
  rewrite Hresp in Hout. injection Hout as <-.
  pose proof (reference_tables_projects _ _ (post_applications_frame env req w))
    as Hproj.
  destruct Hready as (_ & _ & _ & Hop & _).
  apply open_project_has_row in Hop.
  unfold own_rows. rewrite Hproj, Happs, filter_app.
  rewrite filter_none.
  2:{ intros a Hin. specialize (Hlt a Hin).
      destruct (pa_id a =? next_application_id (db w)) eqn:E;
        [apply Z.eqb_eq in E; lia | reflexivity]. }
  simpl. rewrite !Z.eqb_refl. simpl. rewrite app_nil_r.
  destruct (filter (fun p => p_id p =? projectId_param (aq_body req))
              (projects (db w))) as [|p ps]; [contradiction|].
  simpl. eexists _, _. repeat split.
Qed.

Lemma submitted_application_is_found_witness :
  exists row rest,
    own_rows
      (db (post (post_applications Sample.configured
                   (Sample.apply_to (Sample.technician 1) 12)
                   (Sample.world "pending" [] []))))
      101 1
    = row :: rest
    /\ wr_app row
       = new_application (Sample.apply_to (Sample.technician 1) 12)
           (Sample.world "pending" [] [])
    /\ pa_status (wr_app row) = "pending"
    /\ json (created 101)
       = JCreated "Aplicación enviada exitosamente" (pa_id (wr_app row)).
Proof.
  exact (submitted_application_is_found Sample.configured
           (Sample.apply_to (Sample.technician 1) 12)
           (Sample.world "pending" [] []) (created 101)
           (sample_store_well_numbered "pending") eq_refl eq_refl).
Defined.

(** A withdraw lookup that finds nothing, or a requester of the wrong
    role. *)
Lemma withdraw_no_rows req w :
  answered 1 (db_faults w) = true ->
  own_rows (db w) (wq_id req) (userId (wq_user req)) = [] ->
  let r := put_withdraw req w in
  out r = Ret withdraw_not_found /\ db (post r) = db w.
Proof.
  intros HA Hno r. subst r.
  apply answered_S_inv in HA as [F0 _].
  change (wp (put_withdraw req) w (fun o w' _ =>
    o = Ret withdraw_not_found /\ db w' = db w)).
  unfold put_withdraw. apply wp_try_catch. cbv zeta.
  wp_query_ok F0.
  change (fst (exec (clock w)
                 (SelOwnApplication (wq_id req) (userId (wq_user req)))
                 (db w)))
    with (own_rows (db w) (wq_id req) (userId (wq_user req))).
  rewrite Hno. cbv iota. repeat split.
Qed.

Lemma withdraw_wrong_role req w row rest :
  answered 1 (db_faults w) = true ->
  own_rows (db w) (wq_id req) (userId (wq_user req)) = row :: rest ->
  userType (wq_user req) <> "technician" ->
  let r := put_withdraw req w in
  out r = Ret withdraw_forbidden /\ db (post r) = db w.
Proof.
  intros HA Hrows Hrole r. subst r.
  apply answered_S_inv in HA as [F0 _].
  change (wp (put_withdraw req) w (fun o w' _ =>
    o = Ret withdraw_forbidden /\ db w' = db w)).
  unfold put_withdraw. apply wp_try_catch. cbv zeta.
  wp_query_ok F0.
  change (fst (exec (clock w)
                 (SelOwnApplication (wq_id req) (userId (wq_user req)))
                 (db w)))
    with (own_rows (db w) (wq_id req) (userId (wq_user req))).
  rewrite Hrows. cbv iota.
  wp_then.
  { destruct (userType (wq_user req) =? "technician")%string eqn:E;
      [apply String.eqb_eq in E; contradiction | reflexivity]. }
  repeat split.
Qed.

(** A withdraw on a store where every application with this id has the
    status [s], which is not [pending]: the call never reaches its
    UPDATE. *)
Lemma withdraw_refused_when_decided req w s :
  answered 1 (db_faults w) = true ->
  s <> "pending" ->
  (forall r, In r (own_rows (db w) (wq_id req) (userId (wq_user req))) ->
             pa_status (wr_app r) = s) ->
  let r := put_withdraw req w in
  In (out r) [Ret withdraw_not_found; Ret withdraw_forbidden; Ret not_pending]
  /\ db (post r) = db w.
Proof.
  intros HA Hs Hall r. subst r.
  destruct (own_rows (db w) (wq_id req) (userId (wq_user req)))
    as [|row rest] eqn:Hrows.
  - destruct (withdraw_no_rows req w HA Hrows) as [-> ->]. simpl. auto.
  - destruct (String.eqb_spec (userType (wq_user req)) "technician")
      as [Hrole|Hrole].
    + destruct (withdraw_not_pending req w row rest HA Hrows Hrole)
        as [-> ->]; [|simpl; auto].
      rewrite (Hall row (or_introl eq_refl)). exact Hs.
    + destruct (withdraw_wrong_role req w row rest HA Hrows Hrole)
        as [-> ->]. simpl. auto.
Qed.

(** X5. Withdrawing twice: once the withdraw of a pending application by
    its technician has run its UPDATE, the same request sent again, on the
    store the first call left and with its lookup answered, is refused with
    [InvalidState(not_pending)] and changes nothing. *)
Theorem second_withdraw_is_refused req w w2 row rest :
  answered 2 (db_faults w) = true ->
  own_rows (db w) (wq_id req) (userId (wq_user req)) = row :: rest ->
  userType (wq_user req) = "technician" ->
  pa_status (wr_app row) = "pending" ->
  db w2 = db (post (put_withdraw req w)) ->
  answered 1 (db_faults w2) = true ->
  let r2 := put_withdraw req w2 in
  out r2 = Ret not_pending /\ db (post r2) = db w2.
Proof.
  intros HA Hrows Hrole Hst Hdb HA2.
  destruct (withdraw_pending req w row rest HA Hrows Hrole Hst)
    as (_ & Happs & _).
  pose proof (reference_tables_projects _ _ (put_withdraw_frame req w))
    as Hproj.
  rewrite <- Hdb in Happs, Hproj.
  pose proof (own_rows_after_update (db w) (db w2) _ _ _
                (wq_id req) (userId (wq_user req)) Hproj Happs) as Hrows2.
  rewrite Hrows in Hrows2. simpl in Hrows2.
  apply (withdraw_not_pending req w2 _ _ HA2 Hrows2 Hrole).
  simpl. rewrite update_status_sets; [discriminate|].
  apply (own_rows_keys (db w) _ (userId (wq_user req))).
  rewrite Hrows. now left.
Qed.

Lemma second_withdraw_is_refused_witness :
  let req := Sample.withdraw (Sample.technician 1) 100 in
  let w2 := post (put_withdraw req (Sample.world "pending" [] [])) in
  out (put_withdraw req w2) = Ret not_pending
  /\ db (post (put_withdraw req w2)) = db w2.
Proof.
  exact (second_withdraw_is_refused
           (Sample.withdraw (Sample.technician 1) 100)
           (Sample.world "pending" [] [])
           (post (put_withdraw (Sample.withdraw (Sample.technician 1) 100)
                    (Sample.world "pending" [] [])))
           {| wr_app := Sample.app100 "pending";
              wr_title := "Instalacion HVAC" |} []
           eq_refl eq_refl eq_refl eq_refl eq_refl eq_refl).
Defined.

(** X6. After a status change that was answered [200] with a status other
    than [pending], no withdraw request for that application gets as far as
    the UPDATE: whoever sends it, on the store the status change left and
    with the lookup answered, the answer is [404], [403] or
    [InvalidState(not_pending)], and the store is unchanged. *)
Theorem no_withdraw_after_decision sreq w resp wreq w2 :
  out (put_status sreq w) = Ret resp ->
  code resp = 200 ->
  status sreq <> "pending" ->
  wq_id wreq = sq_id sreq ->
  db w2 = db (post (put_status sreq w)) ->
  answered 1 (db_faults w2) = true ->
  let r2 := put_withdraw wreq w2 in
  In (out r2) [Ret withdraw_not_found; Ret withdraw_forbidden; Ret not_pending]
  /\ db (post r2) = db w2.
Proof.
  intros Hout H200 Hs Hid Hdb HA2.
  destruct (status_updated_inv sreq w resp Hout H200)
    as ((Hv & row & rest & Hrow & Hc & Hown) & HA).
  destruct (status_updated_intro sreq w row rest Hv HA Hrow Hc Hown)
    as (_ & Happs & _).
  pose proof (reference_tables_projects _ _ (put_status_frame sreq w))
    as Hproj.
  rewrite <- Hdb in Happs, Hproj.
  apply (withdraw_refused_when_decided wreq w2 (status sreq) HA2 Hs).
  intros r Hin.
  rewrite (own_rows_after_update (db w) (db w2) _ _ _
             (wq_id wreq) (userId (wq_user wreq)) Hproj Happs) in Hin.
  apply in_map_iff in Hin as (r0 & <- & Hin0). simpl.
  apply update_status_sets. rewrite <- Hid.
  apply (own_rows_keys (db w) _ (userId (wq_user wreq))). exact Hin0.
Qed.

Lemma no_withdraw_after_decision_witness :
  let sreq := Sample.set_status (Sample.company 2) 100 "accepted" in
  let wreq := Sample.withdraw (Sample.technician 1) 100 in
  let w2 := post (put_status sreq (Sample.world "pending" [] [])) in
  In (out (put_withdraw wreq w2))
    [Ret withdraw_not_found; Ret withdraw_forbidden; Ret not_pending]
  /\ db (post (put_withdraw wreq w2)) = db w2.
Proof.
  refine (no_withdraw_after_decision
            (Sample.set_status (Sample.company 2) 100 "accepted")
            (Sample.world "pending" [] []) (status_updated "accepted")
            (Sample.withdraw (Sample.technician 1) 100)
            (post (put_status
                     (Sample.set_status (Sample.company 2) 100 "accepted")
                     (Sample.world "pending" [] [])))
            eq_refl eq_refl _ eq_refl eq_refl eq_refl).
  discriminate.
Defined.

(* ===================================================================== *)
(** * Failures around the primary write                                   *)
(* ===================================================================== *)

Lemma wp_query_rejected s w (Q : Outcome (result_of s) -> _) :
  hd false (db_faults w) = true ->
  Q (Throw (DbError s)) (reject_query w) [EvQuery s] ->
  wp (query s) w Q.
Proof. intros F H. apply wp_query; [auto | rewrite F; discriminate]. Qed.

Lemma wp_eq {A} (c : M A) w r Q :
  c w = r -> Q (out r) (post r) (evs r) -> wp c w Q.
Proof. intros <-. auto. Qed.

Lemma fault_at_tl1 w : fault_at 1 w = hd false (tl (db_faults w)).
Proof. unfold fault_at. rewrite !nth_tl. apply nth_hd. Qed.

Lemma fault_at_tl4 w :
  fault_at 4 w = hd false (tl (tl (tl (tl (db_faults w))))).
Proof. unfold fault_at. rewrite !nth_tl. apply nth_hd. Qed.

(** Forward through the five checks and the INSERT of POST /. *)
Ltac submit_through_insert Hv Hr Hcv Hop Hap F0 F1 F2 F3 :=
  unfold post_applications; apply wp_try_catch;
  wp_else; [exact (submit_valid_not_empty _ Hv)|]; cbv zeta;
  wp_else; [exact (submit_technician_check _ Hr)|];
  wp_query_ok F0;
  wp_else; [rewrite cv_check, Hcv; reflexivity|];
  wp_query_ok F1;
  wp_else; [rewrite open_check; simpl;
            match goal with
            | |- match ?o with _ => _ end = _ =>
                destruct o; [reflexivity | contradiction]
            end|];
  wp_query_ok F2;
  wp_else; [rewrite applied_check; exact Hap|];
  wp_query_ok F3.

(** X7. No rollback: when the checks pass and the INSERT is done, but the
    read of the project that follows is rejected by the database, the answer
    is [500] and the application row stays committed; no notification write
    is attempted and no mail is sent. *)
Theorem submission_stays_after_lost_read env req w :
  submit_checks_pass req (db w) ->
  answered 4 (db_faults w) = true ->
  fault_at 4 w = true ->
  let r := post_applications env req w in
  out r = Ret submit_internal_error
  /\ project_applications (db (post r))
     = (project_applications (db w) ++ [new_application req w])%list
  /\ notifications (db (post r)) = notifications (db w)
  /\ notification_inserts_of (evs r) = []
  /\ mails_of (evs r) = [].
Proof.
  intros (Hv & Hr & Hcv & Hop & Hap) HA F4 r. subst r.
  rewrite fault_at_tl4 in F4.
  apply answered_S_inv in HA as [F0 HA].
  apply answered_S_inv in HA as [F1 HA].
  apply answered_S_inv in HA as [F2 HA].
  apply answered_S_inv in HA as [F3 _].
  change (wp (post_applications env req) w (fun o w' es =>
    o = Ret submit_internal_error
    /\ project_applications (db w')
       = (project_applications (db w) ++ [new_application req w])%list
    /\ notifications (db w') = notifications (db w)
    /\ notification_inserts_of es = []
    /\ mails_of es = [])).
  submit_through_insert Hv Hr Hcv Hop Hap F0 F1 F2 F3.
  apply wp_bind. apply wp_query_rejected; [exact F4|]. cbv beta iota.
  wp_run. repeat split.
Qed.

Lemma submission_stays_after_lost_read_witness :
  let r := post_applications Sample.configured
             (Sample.apply_to (Sample.technician 1) 12)
             (Sample.world "pending" [false; false; false; false; true] []) in
  out r = Ret submit_internal_error
  /\ project_applications (db (post r))
     = [Sample.app100 "pending";
        new_application (Sample.apply_to (Sample.technician 1) 12)
          (Sample.world "pending" [] [])]
  /\ notifications (db (post r)) = []
  /\ notification_inserts_of (evs r) = []
  /\ mails_of (evs r) = [].
Proof.
  refine (submission_stays_after_lost_read Sample.configured
            (Sample.apply_to (Sample.technician 1) 12)
            (Sample.world "pending" [false; false; false; false; true] [])
            _ eq_refl eq_refl).
  repeat split; try reflexivity. discriminate.
Defined.

(** X8. A project whose company has no company profile: the checks pass and
    the INSERT is done, the read of the project for the templates returns no
    row, the handler throws on [projectInfo.title], and the answer is [500]
    with the application row committed, no notification write attempted and
    no mail sent. *)
Theorem submission_without_company_profile env req w :
  submit_checks_pass req (db w) ->
  answered 6 (db_faults w) = true ->
  project_info_rows (db w) (projectId_param (aq_body req)) = [] ->
  let r := post_applications env req w in
  out r = Ret submit_internal_error
  /\ project_applications (db (post r))
     = (project_applications (db w) ++ [new_application req w])%list
  /\ notifications (db (post r)) = notifications (db w)
  /\ notification_inserts_of (evs r) = []
  /\ mails_of (evs r) = [].
Proof.
  intros (Hv & Hr & Hcv & Hop & Hap) HA Hnone r. subst r.
  apply answered_S_inv in HA as [F0 HA].
  apply answered_S_inv in HA as [F1 HA].
  apply answered_S_inv in HA as [F2 HA].
  apply answered_S_inv in HA as [F3 HA].
  apply answered_S_inv in HA as [F4 HA].
  apply answered_S_inv in HA as [F5 _].
  change (wp (post_applications env req) w (fun o w' es =>
    o = Ret submit_internal_error
    /\ project_applications (db w')
       = (project_applications (db w) ++ [new_application req w])%list
    /\ notifications (db w') = notifications (db w)
    /\ notification_inserts_of es = []
    /\ mails_of es = [])).
  submit_through_insert Hv Hr Hcv Hop Hap F0 F1 F2 F3.
  wp_query_ok F4. wp_query_ok F5.
  match goal with
  | |- context [fst (exec ?n (SelProjectInfo ?p) ?st)] =>
      change (fst (exec n (SelProjectInfo p) st))
        with (project_info_rows (db w) (projectId_param (aq_body req)))
  end.
  rewrite Hnone. cbv iota.
  wp_run. repeat split.
Qed.

Lemma submission_without_company_profile_witness :
  let w := world_without_company_profile in
  let req := Sample.apply_to (Sample.technician 1) 12 in
  let r := post_applications Sample.configured req w in
  out r = Ret submit_internal_error
  /\ project_applications (db (post r)) = [new_application req w]
  /\ notifications (db (post r)) = []
  /\ notification_inserts_of (evs r) = []
  /\ mails_of (evs r) = [].
Proof.
  refine (submission_without_company_profile Sample.configured
            (Sample.apply_to (Sample.technician 1) 12)
            world_without_company_profile _ eq_refl eq_refl).
  repeat split; try reflexivity. discriminate.
Defined.

(** X9. PUT /:id/status on an id no application has (or whose project or
    technician row is missing): a valid body and an answered lookup give
    [404], the store is unchanged and the lookup is the only statement. *)
Theorem status_change_unknown_application req w :
  status_validationResult req = [] ->
  answered 1 (db_faults w) = true ->
  status_rows (db w) (sq_id req) = [] ->
  let r := put_status req w in
  out r = Ret status_not_found
  /\ db (post r) = db w
  /\ queries_of (evs r) = [SelApplicationForStatus (sq_id req)].
Proof.
  intros Hv HA Hrows r. subst r.
  apply answered_S_inv in HA as [F0 _].
  change (wp (put_status req) w (fun o w' es =>
    o = Ret status_not_found /\ db w' = db w
    /\ queries_of es = [SelApplicationForStatus (sq_id req)])).
  unfold put_status. apply wp_try_catch. cbv zeta.
  wp_else; [exact (status_valid_not_empty _ Hv)|].
  wp_query_ok F0.
  change (fst (exec (clock w) (SelApplicationForStatus (sq_id req)) (db w)))
    with (status_rows (db w) (sq_id req)).
  rewrite Hrows. cbv iota. repeat split.
Qed.

Lemma status_change_unknown_application_witness :
  let r := put_status (Sample.set_status (Sample.company 2) 77 "accepted")
             (Sample.world "pending" [] []) in
  out r = Ret status_not_found
  /\ db (post r) = Sample.store "pending"
  /\ queries_of (evs r) = [SelApplicationForStatus 77].
Proof.
  exact (status_change_unknown_application
           (Sample.set_status (Sample.company 2) 77 "accepted")
           (Sample.world "pending" [] []) eq_refl eq_refl eq_refl).
Defined.

(** X10. An authorized status change whose UPDATE the database rejects is
    answered [500]; the store is as before and no notification write is
    attempted. *)
Theorem status_change_rejected_update req w :
  status_ready req (db w) ->
  answered 1 (db_faults w) = true ->
  fault_at 1 w = true ->
  let r := put_status req w in
  out r = Ret status_internal_error
  /\ db (post r) = db w
  /\ notification_inserts_of (evs r) = [].
Proof.
  intros (Hv & row & rest & Hrow & Hc & Hown) HA F1 r. subst r.
  rewrite fault_at_tl1 in F1.
  apply answered_S_inv in HA as [F0 _].
  change (wp (put_status req) w (fun o w' es =>
    o = Ret status_internal_error /\ db w' = db w
    /\ notification_inserts_of es = [])).
  unfold put_status. apply wp_try_catch. cbv zeta.
  wp_else; [exact (status_valid_not_empty _ Hv)|].
  wp_query_ok F0.
  change (fst (exec (clock w) (SelApplicationForStatus (sq_id req)) (db w)))
    with (status_rows (db w) (sq_id req)).
  rewrite Hrow. cbv iota.
  wp_else; [exact (status_owner_check _ _ Hc Hown)|].
  apply wp_bind. apply wp_query_rejected; [exact F1|]. cbv beta iota.
  wp_run. repeat split.
Qed.

Lemma status_change_rejected_update_witness :
  let r := put_status (Sample.set_status (Sample.company 2) 100 "accepted")
             (Sample.world "pending" [false; true] []) in
  out r = Ret status_internal_error
  /\ db (post r) = Sample.store "pending"
  /\ notification_inserts_of (evs r) = [].
Proof.
  refine (status_change_rejected_update
            (Sample.set_status (Sample.company 2) 100 "accepted")
            (Sample.world "pending" [false; true] []) _ eq_refl eq_refl).
  split; [reflexivity|].
  eexists _, _. repeat split; reflexivity.
Defined.

(* ===================================================================== *)
(** * The fan-out when every service answers                              *)
(* ===================================================================== *)

Lemma wp_createNotification_ok userId type title message relatedId w Q :
  hd false (db_faults w) = false ->
  Q (Ret (NotificationSuccess (next_notification_id (db w))))
    (answer_query (InsNotification userId type title message relatedId) w)
    [EvQuery (InsNotification userId type title message relatedId)] ->
  wp (createNotification userId type title message relatedId) w Q.
Proof.
  intros F H. apply wp_createNotification; [rewrite F; discriminate | auto].
Qed.

Lemma wp_confirmation_ok env email name title w Q :
  isEmailConfigured env = true ->
  hd false (smtp_faults w) = false ->
  Q (Ret (SendSuccess (Z.of_nat (List.length (outbox w)))))
    (deliver_mail (confirmation_mail env email title) w)
    [EvSendMail (confirmation_mail env email title);
     EvConsole "log" "Email de confirmación enviado:"] ->
  wp (sendApplicationConfirmationEmail env email name title) w Q.
Proof.
  intros Hc F H. unfold wp.
  rewrite sendApplicationConfirmationEmail_run, Hc, F. exact H.
Qed.

Lemma wp_application_ok env d w Q :
  isEmailConfigured env = true ->
  hd false (smtp_faults w) = false ->
  Q (Ret (SendSuccess (Z.of_nat (List.length (outbox w)))))
    (deliver_mail (application_mail env d) w)
    [EvSendMail (application_mail env d);
     EvConsole "log" "Email de aplicación enviado:"] ->
  wp (sendJobApplicationEmail env d) w Q.
Proof.
  intros Hc F H. unfold wp.
  rewrite sendJobApplicationEmail_run, Hc, F. exact H.
Qed.

(** X11. The whole fan-out: when the checks pass, the database answers all
    eight statements, the mailer is configured and the transport accepts
    both messages, the answer is [201]; the technician's and then the
    company's notification rows are added, unread and tied to the project;
    and the ledger receives the confirmation addressed to the technician's
    e-mail followed by the notice addressed to the operations mailbox, which
    carries the CV as its one attachment exactly when the profile names a CV
    file. *)
Theorem submission_with_healthy_services env req w p ps t ts :
  submit_checks_pass req (db w) ->
  project_info_rows (db w) (projectId_param (aq_body req)) = p :: ps ->
  technician_info_rows (db w) (userId (aq_user req)) = t :: ts ->
  answered 8 (db_faults w) = true ->
  isEmailConfigured env = true ->
  answered 2 (smtp_faults w) = true ->
  let r := post_applications env req w in
  out r = Ret (created (next_application_id (db w)))
  /\ notifications (db (post r))
     = (notifications (db w)
        ++ [job_notification req p (next_notification_id (db w));
            company_notification req p t (next_notification_id (db w) + 1)])%list
  /\ exists notice,
       outbox (post r)
       = (outbox w
          ++ [confirmation_mail env (ti_email t) (pi_title p); notice])%list
       /\ mail_to notice = "hola.trabajatecnico@gmail.com"
       /\ mail_subject notice = "Nueva Aplicación de Trabajo - " ++ pi_title p
       /\ mail_attachments notice = cv_attachments env t.
Proof.
  intros (Hv & Hr & Hcv & Hop & Hap) Hp Ht HA Hc HS r. subst r.
  apply answered_S_inv in HA as [F0 HA].
  apply answered_S_inv in HA as [F1 HA].
  apply answered_S_inv in HA as [F2 HA].
  apply answered_S_inv in HA as [F3 HA].
  apply answered_S_inv in HA as [F4 HA].
  apply answered_S_inv in HA as [F5 HA].
  apply answered_S_inv in HA as [F6 HA].
  apply answered_S_inv in HA as [F7 _].
  apply answered_S_inv in HS as [S0 HS].
  apply answered_S_inv in HS as [S1 _].
  change (wp (post_applications env req) w (fun o w' _ =>
    o = Ret (created (next_application_id (db w)))
    /\ notifications (db w')
       = (notifications (db w)
          ++ [job_notification req p (next_notification_id (db w));
              company_notification req p t
                (next_notification_id (db w) + 1)])%list
    /\ exists notice,
         outbox w'
         = (outbox w
            ++ [confirmation_mail env (ti_email t) (pi_title p); notice])%list
         /\ mail_to notice = "hola.trabajatecnico@gmail.com"
         /\ mail_subject notice
            = "Nueva Aplicación de Trabajo - " ++ pi_title p
         /\ mail_attachments notice = cv_attachments env t)).
  submit_through_insert Hv Hr Hcv Hop Hap F0 F1 F2 F3.
  wp_query_ok F4. wp_query_ok F5.
  match goal with
  | |- context [fst (exec ?n (SelProjectInfo ?i) ?st)] =>
      change (fst (exec n (SelProjectInfo i) st))
        with (project_info_rows (db w) (projectId_param (aq_body req)))
  end.
  match goal with
  | |- context [fst (exec ?n (SelTechnicianInfo ?i) ?st)] =>
      change (fst (exec n (SelTechnicianInfo i) st))
        with (technician_info_rows (db w) (userId (aq_user req)))
  end.
  rewrite Hp, Ht. cbv iota.
  apply wp_bind. apply wp_call_bound; [reflexivity|].
  apply wp_createNotification_ok; [exact F6|]. cbv beta iota.
  apply wp_bind. apply wp_call_bound; [reflexivity|].
  apply wp_createNotification_ok; [exact F7|]. cbv beta iota.
  apply wp_bind. apply wp_call_bound; [reflexivity|].
  apply wp_confirmation_ok; [exact Hc | exact S0 |]. cbv beta iota.
  cbv zeta.
  apply wp_bind. apply wp_call_bound; [reflexivity|].
  apply wp_application_ok; [exact Hc | exact S1 |]. cbv beta iota.
  apply wp_ret.
  split; [reflexivity|]. split.
  - cbn [db deliver_mail answer_query exec snd notifications
           set_notifications next_notification_id set_applications].
    rewrite <- app_assoc. reflexivity.
  - eexists. split; [|split; [|split]].
    + cbn [outbox deliver_mail answer_query]. rewrite <- app_assoc.
      reflexivity.
    + reflexivity.
    + reflexivity.
    + unfold cv_attachments, application_mail. cbn [mail_attachments cvFilePath].
      destruct (ti_cv_file t) as [f|]; [|reflexivity].
      destruct (truthy (Some f)); reflexivity.
Qed.

Lemma sample_checks_pass st :
  submit_checks_pass (Sample.apply_to (Sample.technician 1) 12)
    (Sample.store st).
Proof. repeat split; try reflexivity. discriminate. Qed.

Lemma submission_with_healthy_services_witness :
  let w := Sample.world "pending" [] [] in
  let r := post_applications Sample.configured
             (Sample.apply_to (Sample.technician 1) 12) w in
  out r = Ret (created 101)
  /\ List.length (notifications (db (post r))) = 2%nat
  /\ map mail_to (outbox (post r))
     = ["ana@example.pe"; "hola.trabajatecnico@gmail.com"].
Proof.
  pose proof (submission_with_healthy_services Sample.configured
                (Sample.apply_to (Sample.technician 1) 12)
                (Sample.world "pending" [] [])
                {| pi_title := "Fibra optica"; pi_company_id := 4;
                   pi_company_name := "Lima Redes SRL" |} []
                {| ti_full_name := "Ana Quispe"; ti_email := "ana@example.pe";
                   ti_cv_file := Some "cv_ana.pdf" |} []
                (sample_checks_pass "pending")
                eq_refl eq_refl eq_refl eq_refl eq_refl) as H.
  cbv zeta in H. destruct H as (H1 & H2 & notice & H3 & H4 & _).
  cbv zeta. split; [exact H1|]. split.
  - rewrite H2. reflexivity.
  - rewrite H3. simpl. rewrite H4. reflexivity.
Defined.

(* ===================================================================== *)
(** * The services, whatever happens                                      *)
(* ===================================================================== *)

(** X12. Neither send operation ever throws, whatever the configuration and
    the transport do.  It answers [success: true] exactly when the transport
    accepted the message, which is then the one entry added to the ledger;
    otherwise the ledger is as before.  The store is never touched. *)
Theorem mailer_never_throws env w :
  (forall d,
     let r := sendJobApplicationEmail env d w in
     db (post r) = db w
     /\ ((exists id, out r = Ret (SendSuccess id)
                     /\ outbox (post r)
                        = (outbox w ++ [application_mail env d])%list)
         \/ (exists e, out r = Ret (SendFailure e)
                       /\ outbox (post r) = outbox w)))
  /\ (forall email name title,
        let r := sendApplicationConfirmationEmail env email name title w in
        db (post r) = db w
        /\ ((exists id, out r = Ret (SendSuccess id)
                        /\ outbox (post r)
                           = (outbox w
                              ++ [confirmation_mail env email title])%list)
            \/ (exists e, out r = Ret (SendFailure e)
                          /\ outbox (post r) = outbox w))).
Proof.
  split.
  - intros d r. subst r. rewrite sendJobApplicationEmail_run.
    destruct (isEmailConfigured env); simpl;
      [destruct (hd false (smtp_faults w)); simpl|];
      (split; [reflexivity|]);
      first [ left; eexists; split; reflexivity
            | right; eexists; split; reflexivity ].
  - intros email name title r. subst r.
    rewrite sendApplicationConfirmationEmail_run.
    destruct (isEmailConfigured env); simpl;
      [destruct (hd false (smtp_faults w)); simpl|];
      (split; [reflexivity|]);
      first [ left; eexists; split; reflexivity
            | right; eexists; split; reflexivity ].
Qed.

(** X13. [createNotification] never throws.  It answers [success: true]
    with the id of the one row it appended, which is unread and carries the
    given recipient, type, title, message and reference; or it answers
    [success: false] and the store is as before.  Either way the
    applications are untouched. *)
Theorem createNotification_never_throws userId type title message relatedId w :
  let r := createNotification userId type title message relatedId w in
  project_applications (db (post r)) = project_applications (db w)
  /\ ((exists id,
         out r = Ret (NotificationSuccess id)
         /\ id = next_notification_id (db w)
         /\ notifications (db (post r))
            = (notifications (db w)
               ++ [ {| n_id := id; n_user_id := userId; n_type := type;
                       n_title := title; n_message := message;
                       n_related_id := relatedId; n_is_read := false |} ])%list)
      \/ (exists e, out r = Ret (NotificationFailure e)
                    /\ db (post r) = db w)).
Proof.
  intros r. subst r. rewrite createNotification_run.
  destruct (hd false (db_faults w)); simpl.
  - split; [reflexivity|]. right. eauto.
  - split; [reflexivity|]. left. eauto.
Qed.

(* ===================================================================== *)
(** * The notification router                                             *)
(* ===================================================================== *)

Lemma gateway_answered {A} (run : Store -> A * Store) s :
  hd false (Inbox.faults s) = false ->
  Inbox.gateway run s
  = (Some (fst (run (Inbox.store s))),
     {| Inbox.store := snd (run (Inbox.store s));
        Inbox.faults := tl (Inbox.faults s);
        Inbox.console := Inbox.console s |}).
Proof.
  unfold Inbox.gateway. destruct (Inbox.faults s) as [|[|] l]; simpl;
    [reflexivity | discriminate | reflexivity].
Qed.

Lemma select_own_none st id uid :
  (forall n, In n (notifications st) -> n_id n = id -> n_user_id n <> uid) ->
  Inbox.select_own id uid st = [].
Proof.
  intros H. unfold Inbox.select_own. apply filter_none. intros n Hin.
  destruct (n_id n =? id) eqn:E1; [|reflexivity].
  destruct (n_user_id n =? uid) eqn:E2; [|reflexivity].
  apply Z.eqb_eq in E1, E2. exfalso. exact (H n Hin E1 E2).
Qed.

(** X14. PUT /:id/read and DELETE /:id on an id under which the requester
    has no notification (there is none, or it is someone else's): with the
    lookup answered, both answer [404] and the store is unchanged. *)
Theorem inbox_hides_foreign_notifications user id s :
  hd false (Inbox.faults s) = false ->
  (forall n, In n (notifications (Inbox.store s)) ->
             n_id n = id -> n_user_id n <> userId user) ->
  (fst (Inbox.put_read user id s)
   = Inbox.not_found
       "La notificación no existe o no tienes permisos para modificarla"
   /\ Inbox.store (snd (Inbox.put_read user id s)) = Inbox.store s)
  /\ (fst (Inbox.delete_notification user id s)
      = Inbox.not_found
          "La notificación no existe o no tienes permisos para eliminarla"
      /\ Inbox.store (snd (Inbox.delete_notification user id s))
         = Inbox.store s).
Proof.
  intros F Hno. apply select_own_none in Hno.
  unfold Inbox.put_read, Inbox.delete_notification.
  rewrite !gateway_answered by exact F. simpl. rewrite Hno.
  repeat split.
Qed.

Lemma inbox_hides_foreign_notifications_witness :
  let st := set_notifications (Sample.store "pending")
              [ {| n_id := 1; n_user_id := 1; n_type := "job_application";
                   n_title := "Aplicación Enviada"; n_message := "m";
                   n_related_id := Some 12; n_is_read := false |} ] 2 in
  fst (Inbox.put_read (Sample.company 2) 1 (Inbox.healthy st))
  = Inbox.not_found
      "La notificación no existe o no tienes permisos para modificarla"
  /\ Inbox.store (snd (Inbox.put_read (Sample.company 2) 1 (Inbox.healthy st)))
     = st.
Proof.
  refine (proj1 (inbox_hides_foreign_notifications (Sample.company 2) 1
                   (Inbox.healthy _) eq_refl _)).
  intros n [<-|[]] _. discriminate.
Defined.

Lemma select_own_found st id uid n rest :
  Inbox.select_own id uid st = n :: rest ->
  In n (notifications st) /\ n_id n = id /\ n_user_id n = uid.
Proof.
  unfold Inbox.select_own. intros H.
  assert (Hin : In n (filter (fun n => (n_id n =? id) && (n_user_id n =? uid))
                        (notifications st))) by (rewrite H; now left).
  apply filter_In in Hin as [Hin Hp]. apply andb_true_iff in Hp as [H1 H2].
  apply Z.eqb_eq in H1, H2. auto.
Qed.

Lemma unique_id_owner (l : list Notification) n m :
  NoDup (map n_id l) -> In n l -> In m l -> n_id n = n_id m -> n = m.
Proof.
  induction l as [|a l IH]; [intros _ []|].
  simpl. intros Hnd Hn Hm E. inversion Hnd as [|? ? Hnot Hnd']. subst.
  destruct Hn as [<-|Hn], Hm as [<-|Hm]; auto.
  - exfalso. apply Hnot. rewrite E. now apply in_map.
  - exfalso. apply Hnot. rewrite <- E. now apply in_map.
Qed.

(** X15. PUT /:id/read on a notification of the requester, both statements
    answered: the answer is [200], every row with that id is read
    afterwards and every other row is as it was.  With unique ids the rows
    of all other users are therefore untouched. *)
Theorem inbox_read_marks_one user id s n rest :
  answered 2 (Inbox.faults s) = true ->
  Inbox.select_own id (userId user) (Inbox.store s) = n :: rest ->
  let r := Inbox.put_read user id s in
  fst r = Inbox.ok "Notificación marcada como leída"
  /\ notifications (Inbox.store (snd r))
     = map (fun m => if n_id m =? id then Inbox.set_read m else m)
         (notifications (Inbox.store s))
  /\ (NoDup (map n_id (notifications (Inbox.store s))) ->
      Inbox.of_others (userId user) (Inbox.store (snd r))
      = Inbox.of_others (userId user) (Inbox.store s)).
Proof.
  intros HA Hsel r. subst r.
  apply answered_S_inv in HA as [F0 HA].
  apply answered_S_inv in HA as [F1 _].
  unfold Inbox.put_read.
  rewrite gateway_answered by exact F0. cbn [fst snd]. rewrite Hsel.
  rewrite gateway_answered by exact F1. cbn [fst snd Inbox.store].
  split; [reflexivity|]. split; [reflexivity|].
  intros Hnd. apply select_own_found in Hsel as (Hin & Hid & Hu).
  unfold Inbox.of_others, Inbox.update_read. cbn [notifications set_notifications].
  assert (Hothers : forall m, In m (notifications (Inbox.store s)) ->
            n_user_id m <> userId user -> (n_id m =? id) = false).
  { intros m Hm Hne. apply Z.eqb_neq. intros E. apply Hne.
    rewrite (unique_id_owner _ m n Hnd Hm Hin); [exact Hu | congruence]. }
  revert Hothers. clear.
  induction (notifications (Inbox.store s)) as [|m l IH]; [reflexivity|].
  intros H. simpl.
  destruct (n_user_id m =? userId user) eqn:E.
  - destruct (n_id m =? id); simpl; rewrite E; simpl;
      apply IH; intros; apply H; auto; now right.
  - rewrite (H m (or_introl eq_refl)); [|now apply Z.eqb_neq].
    simpl. rewrite E. simpl. f_equal. apply IH. intros. apply H; auto.
    now right.
Qed.

Lemma inbox_read_marks_one_witness :
  let n := {| n_id := 1; n_user_id := 1; n_type := "job_application";
              n_title := "Aplicación Enviada"; n_message := "m";
              n_related_id := Some 12; n_is_read := false |} in
  let st := set_notifications (Sample.store "pending") [n] 2 in
  let r := Inbox.put_read (Sample.technician 1) 1 (Inbox.healthy st) in
  fst r = Inbox.ok "Notificación marcada como leída"
  /\ notifications (Inbox.store (snd r)) = [Inbox.set_read n].
Proof.
  cbv zeta.
  pose proof (inbox_read_marks_one (Sample.technician 1) 1
                (Inbox.healthy
                   (set_notifications (Sample.store "pending")
                      [ {| n_id := 1; n_user_id := 1;
                           n_type := "job_application";
                           n_title := "Aplicación Enviada"; n_message := "m";
                           n_related_id := Some 12; n_is_read := false |} ] 2))
                _ [] eq_refl eq_refl) as H.
  cbv zeta in H. destruct H as (H1 & H2 & _).
  split; [exact H1 | exact H2].
Defined.

Lemma count_unread_after_read_all uid st :
  Inbox.count_unread uid (Inbox.update_read_all uid st) = 0.
Proof.
  unfold Inbox.count_unread, Inbox.update_read_all.
  cbn [notifications set_notifications].
  induction (notifications st) as [|m l IH]; [reflexivity|].
  simpl. destruct (n_user_id m =? uid) eqn:E; simpl.
  - destruct (n_is_read m) eqn:R; simpl; rewrite E; simpl;
      [rewrite R; simpl; exact IH | exact IH].
  - rewrite E. simpl. exact IH.
Qed.

Lemma of_others_after_read_all uid st :
  Inbox.of_others uid (Inbox.update_read_all uid st) = Inbox.of_others uid st.
Proof.
  unfold Inbox.of_others, Inbox.update_read_all.
  cbn [notifications set_notifications].
  induction (notifications st) as [|m l IH]; [reflexivity|].
  simpl. destruct (n_user_id m =? uid) eqn:E; simpl.
  - destruct (n_is_read m); simpl; rewrite E; simpl; exact IH.
  - rewrite E. simpl. f_equal. exact IH.
Qed.

(** X16. PUT /read-all followed by GET /unread/count: when both statements
    are answered, the first answers [200] and the count that follows is 0;
    the notifications of all other users are as they were and no row has
    been added or removed. *)
Theorem inbox_read_all_clears_unread user s :
  answered 2 (Inbox.faults s) = true ->
  let r1 := Inbox.put_read_all user s in
  let r2 := Inbox.get_unread_count user (snd r1) in
  fst r1 = Inbox.ok "Todas las notificaciones han sido marcadas como leídas"
  /\ fst r2 = Inbox.UnreadCount 0
  /\ Inbox.of_others (userId user) (Inbox.store (snd r1))
     = Inbox.of_others (userId user) (Inbox.store s)
  /\ map n_id (notifications (Inbox.store (snd r1)))
     = map n_id (notifications (Inbox.store s)).
Proof.
  intros HA r1 r2. subst r1 r2.
  apply answered_S_inv in HA as [F0 HA].
  apply answered_S_inv in HA as [F1 _].
  unfold Inbox.put_read_all, Inbox.get_unread_count.
  rewrite (gateway_answered _ s F0). cbn [fst snd].
  rewrite gateway_answered by exact F1. cbn [fst snd Inbox.store].
  split; [reflexivity|]. split; [|split].
  - rewrite count_unread_after_read_all. reflexivity.
  - apply of_others_after_read_all.
  - unfold Inbox.update_read_all. cbn [notifications set_notifications].
    rewrite map_map. apply map_ext. intros m.
    destruct ((n_user_id m =? userId user) && negb (n_is_read m)); reflexivity.
Qed.

Lemma inbox_read_all_clears_unread_witness :
  let st := set_notifications (Sample.store "pending")
              [ {| n_id := 1; n_user_id := 1; n_type := "job_application";
                   n_title := "Aplicación Enviada"; n_message := "m";
                   n_related_id := Some 12; n_is_read := false |} ] 2 in
  fst (Inbox.get_unread_count (Sample.technician 1)
         (snd (Inbox.put_read_all (Sample.technician 1) (Inbox.healthy st))))
  = Inbox.UnreadCount 0.
Proof.
  cbv zeta.
  refine (proj1 (proj2 (inbox_read_all_clears_unread (Sample.technician 1)
                          (Inbox.healthy _) eq_refl))).
Defined.

Lemma of_others_after_delete_own (l : list Notification) id uid n :
  NoDup (map n_id l) -> In n l -> n_id n = id -> n_user_id n = uid ->
  filter (fun m => negb (n_user_id m =? uid))
    (filter (fun m => negb (n_id m =? id)) l)
  = filter (fun m => negb (n_user_id m =? uid)) l.
Proof.
  intros Hnd Hin Hid Hu.
  assert (H : forall m, In m l -> n_user_id m <> uid -> (n_id m =? id) = false).
  { intros m Hm Hne. apply Z.eqb_neq. intros E. apply Hne.
    rewrite (unique_id_owner l m n Hnd Hm Hin); [exact Hu | congruence]. }
  revert H. clear.
  induction l as [|m l IH]; [reflexivity|]. intros H. simpl.
  destruct (n_user_id m =? uid) eqn:E.
  - destruct (n_id m =? id); simpl; [|rewrite E; simpl];
      apply IH; intros; apply H; auto; now right.
  - rewrite (H m (or_introl eq_refl)); [|now apply Z.eqb_neq].
    simpl. rewrite E. simpl. f_equal. apply IH. intros. apply H; auto.
    now right.
Qed.

(** X17. DELETE /:id on a notification of the requester, both statements
    answered: the answer is [200]; exactly the rows with that id are gone,
    so the lookup of that id finds nothing for any user afterwards; and with
    unique ids the rows of all other users are untouched. *)
Theorem inbox_delete_removes_one user id s n rest :
  answered 2 (Inbox.faults s) = true ->
  Inbox.select_own id (userId user) (Inbox.store s) = n :: rest ->
  let r := Inbox.delete_notification user id s in
  fst r = Inbox.ok "Notificación eliminada exitosamente"
  /\ notifications (Inbox.store (snd r))
     = filter (fun m => negb (n_id m =? id)) (notifications (Inbox.store s))
  /\ (forall uid, Inbox.select_own id uid (Inbox.store (snd r)) = [])
  /\ (NoDup (map n_id (notifications (Inbox.store s))) ->
      Inbox.of_others (userId user) (Inbox.store (snd r))
      = Inbox.of_others (userId user) (Inbox.store s)).
Proof.
  intros HA Hsel r. subst r.
  apply answered_S_inv in HA as [F0 HA].
  apply answered_S_inv in HA as [F1 _].
  unfold Inbox.delete_notification.
  rewrite gateway_answered by exact F0. cbn [fst snd]. rewrite Hsel.
  rewrite gateway_answered by exact F1. cbn [fst snd Inbox.store].
  split; [reflexivity|]. split; [reflexivity|]. split.
  - intros uid. unfold Inbox.select_own, Inbox.delete_by_id.
    cbn [notifications set_notifications]. apply filter_none.
    intros m Hm. apply filter_In in Hm as [_ Hm].
    apply negb_true_iff in Hm. rewrite Hm. reflexivity.
  - intros Hnd. apply select_own_found in Hsel as (Hin & Hid & Hu).
    unfold Inbox.of_others, Inbox.delete_by_id.
    cbn [notifications set_notifications].
    exact (of_others_after_delete_own _ id (userId user) n Hnd Hin Hid Hu).
Qed.

Lemma inbox_delete_removes_one_witness :
  let n := {| n_id := 1; n_user_id := 1; n_type := "job_application";
              n_title := "Aplicación Enviada"; n_message := "m";
              n_related_id := Some 12; n_is_read := false |} in
  let st := set_notifications (Sample.store "pending") [n] 2 in
  let r := Inbox.delete_notification (Sample.technician 1) 1
             (Inbox.healthy st) in
  fst r = Inbox.ok "Notificación eliminada exitosamente"
  /\ notifications (Inbox.store (snd r)) = [].
Proof.
  cbv zeta.
  pose proof (inbox_delete_removes_one (Sample.technician 1) 1
                (Inbox.healthy
                   (set_notifications (Sample.store "pending")
                      [ {| n_id := 1; n_user_id := 1;
                           n_type := "job_application";
                           n_title := "Aplicación Enviada"; n_message := "m";
                           n_related_id := Some 12; n_is_read := false |} ] 2))
                _ [] eq_refl eq_refl) as H.
  cbv zeta in H. destruct H as (H1 & H2 & _).
  split; [exact H1 | exact H2].
Defined.

(** X18. The handler of DELETE /read, its statement answered: the answer is
    [200]; the rows removed are exactly the requester's read ones, so the
    unread count of every user is what it was and the notifications of all
    other users are untouched. *)
Theorem inbox_delete_read_keeps_unread user s :
  hd false (Inbox.faults s) = false ->
  let r := Inbox.delete_read user s in
  fst r = Inbox.ok "Notificaciones leídas eliminadas exitosamente"
  /\ notifications (Inbox.store (snd r))
     = filter (fun m => negb ((n_user_id m =? userId user) && n_is_read m))
         (notifications (Inbox.store s))
  /\ (forall uid, Inbox.count_unread uid (Inbox.store (snd r))
                  = Inbox.count_unread uid (Inbox.store s))
  /\ Inbox.of_others (userId user) (Inbox.store (snd r))
     = Inbox.of_others (userId user) (Inbox.store s).
Proof.
  intros F r. subst r. unfold Inbox.delete_read.
  rewrite gateway_answered by exact F. cbn [fst snd Inbox.store].
  split; [reflexivity|]. split; [reflexivity|]. split.
  - intros uid. unfold Inbox.count_unread, Inbox.delete_read_of.
    cbn [notifications set_notifications]. f_equal. f_equal.
    induction (notifications (Inbox.store s)) as [|m l IH]; [reflexivity|].
    simpl. destruct (n_is_read m) eqn:R.
    + rewrite andb_false_r.
      destruct (n_user_id m =? userId user); simpl;
        [exact IH | rewrite R, andb_false_r; exact IH].
    + rewrite andb_false_r. simpl. rewrite R. rewrite andb_true_r.
      destruct (n_user_id m =? uid); simpl; [f_equal|]; exact IH.
  - unfold Inbox.of_others, Inbox.delete_read_of.
    cbn [notifications set_notifications].
    induction (notifications (Inbox.store s)) as [|m l IH]; [reflexivity|].
    simpl. destruct (n_user_id m =? userId user) eqn:E; simpl.
    + destruct (n_is_read m); simpl; [|rewrite E; simpl]; exact IH.
    + rewrite E. simpl. f_equal. exact IH.
Qed.

Lemma inbox_delete_read_keeps_unread_witness :
  let st := set_notifications (Sample.store "pending")
              [ {| n_id := 1; n_user_id := 1; n_type := "job_application";
                   n_title := "Aplicación Enviada"; n_message := "m";
                   n_related_id := Some 12; n_is_read := true |} ] 2 in
  fst (Inbox.delete_read (Sample.technician 1) (Inbox.healthy st))
  = Inbox.ok "Notificaciones leídas eliminadas exitosamente".
Proof.
  cbv zeta.
  refine (proj1 (inbox_delete_read_keeps_unread (Sample.technician 1)
                   (Inbox.healthy _) eq_refl)).
Defined.

(** X19. A notification written by the service shows in the router's count:
    after a [createNotification] the store accepted, GET /unread/count for
    the recipient, answered, returns one more than it would have before, and
    for every other user the same number. *)
Theorem written_notification_is_counted recipient type title message
  relatedId w user :
  hd false (db_faults w) = false ->
  let st' :=
    db (post (createNotification recipient type title message relatedId w)) in
  fst (Inbox.get_unread_count user (Inbox.healthy st'))
  = Inbox.UnreadCount
      (Inbox.count_unread (userId user) (db w)
       + (if userId user =? recipient then 1 else 0)).
Proof.
  intros F st'. subst st'. rewrite createNotification_run, F.
  cbn [post db answer_query exec snd].
  unfold Inbox.get_unread_count, Inbox.healthy, Inbox.gateway.
  cbn [Inbox.faults Inbox.store fst snd]. f_equal.
  unfold Inbox.count_unread. cbn [notifications set_notifications].
  rewrite filter_app, length_app, Nat2Z.inj_add. f_equal.
  simpl. rewrite (Z.eqb_sym recipient).
  destruct (userId user =? recipient); reflexivity.
Qed.

Lemma written_notification_is_counted_witness :
  fst (Inbox.get_unread_count (Sample.technician 1)
         (Inbox.healthy
            (db (post (createNotification 1 "job_application" "t" "m"
                         (Some 12) (Sample.world "pending" [] []))))))
  = Inbox.UnreadCount 1.
Proof.
  exact (written_notification_is_counted 1 "job_application" "t" "m"
           (Some 12) (Sample.world "pending" [] []) (Sample.technician 1)
           eq_refl).
Defined.

(* ===================================================================== *)
(** * The order of the notification routes                                *)
(* ===================================================================== *)

(** X20. The handler of DELETE /read is never reached: DELETE /:id is
    registered before it and takes every one-segment path, the path
    [/read] among them (with [id = 'read']); no method and path are
    dispatched to the handler of DELETE /read. *)
Theorem delete_read_is_shadowed m path :
  (forall params,
     Router.dispatch Router.notification_routes m path
     <> Some (Router.DeleteRead, params))
  /\ (forall x,
        Router.dispatch Router.notification_routes Router.DELETE [x]
        = Some (Router.DeleteOne, [("id", x)])).
Proof.
  split; [|reflexivity].
  intros params. unfold Router.notification_routes.
  destruct m; cbn [Router.dispatch Router.method_eqb].
  - destruct (Router.matches [] path); [discriminate|].
    destruct (Router.matches _ path); discriminate.
  - discriminate.
  - destruct (Router.matches _ path); [discriminate|].
    destruct (Router.matches _ path); discriminate.
  - destruct path as [|x [|y rest]]; cbn [Router.matches].
    + discriminate.
    + discriminate.
    + destruct (Router.lower "read" =? Router.lower x)%string; discriminate.
Qed.

(* ===================================================================== *)
(** * The authentication middleware                                       *)
(* ===================================================================== *)

Lemma split_spaceless s :
  Auth.spaceless s = true -> Auth.split Auth.space s = [s].
Proof.
  induction s as [|c s IH]; [reflexivity|]. simpl. intros H.
  apply andb_true_iff in H as [Hc Hs]. apply negb_true_iff in Hc.
  rewrite (IH Hs), Hc. reflexivity.
Qed.

(** X21. A request with no Authorization header, or with one that holds no
    space, is answered [401 Token requerido]; [jwt.verify] and the users
    table play no part. *)
Theorem auth_requires_a_second_word verify accounts fault authHeader :
  match authHeader with
  | Some h => Auth.spaceless h = true
  | None => True
  end ->
  Auth.authenticateToken verify accounts fault authHeader
  = Auth.Respond Auth.token_required.
Proof.
  unfold Auth.authenticateToken, Auth.token.
  destruct authHeader as [h|]; [|reflexivity]. intros H.
  destruct (truthy (Some h)) eqn:T.
  - rewrite (split_spaceless h H). reflexivity.
  - rewrite T. reflexivity.
Qed.

Lemma auth_requires_a_second_word_witness :
  Auth.authenticateToken (fun _ => Auth.Decoded 1) [] false (Some "Bearer")
  = Auth.Respond Auth.token_required.
Proof.
  exact (auth_requires_a_second_word (fun _ => Auth.Decoded 1) [] false
           (Some "Bearer") eq_refl).
Defined.

(** X22. When [authenticateToken] calls [next()], the [req.user] it has set
    is that of an active account: the header carried a token that
    [jwt.verify] decoded to the id of an account in the users table with
    [is_active] set, and [userId] and [userType] are that account's id and
    type. *)
Theorem authenticated_user_is_an_active_account verify accounts fault
  authHeader user :
  Auth.authenticateToken verify accounts fault authHeader = Auth.Next user ->
  exists tok a,
    Auth.token authHeader = Some tok
    /\ verify tok = Auth.Decoded (Auth.id a)
    /\ In a accounts
    /\ Auth.is_active a = true
    /\ Auth.get user "userId" = Auth.Num (Auth.id a)
    /\ Auth.get user "userType" = Auth.Str (Auth.user_type a).
Proof.
  unfold Auth.authenticateToken.
  destruct (Auth.token authHeader) as [tok|]; [|discriminate].
  destruct (negb (truthy (Some tok))); [discriminate|].
  destruct (verify tok) as [uid| | |] eqn:V; try discriminate.
  destruct fault; [discriminate|].
  destruct (filter _ accounts) as [|a rest] eqn:Hf; [discriminate|].
  intros H. injection H as <-.
  assert (Hin : In a (filter (fun a => (Auth.id a =? uid) && Auth.is_active a)
                        accounts)) by (rewrite Hf; now left).
  apply filter_In in Hin as [Hin Hp]. apply andb_true_iff in Hp as [Hid Hact].
  apply Z.eqb_eq in Hid. subst uid.
  exists tok, a. repeat split; assumption.
Qed.

Lemma authenticated_user_is_an_active_account_witness :
  exists tok a,
    Auth.token (Some "Bearer abc") = Some tok
    /\ Auth.Decoded 7 = Auth.Decoded (Auth.id a)
    /\ In a [ {| Auth.id := 7; Auth.email := "ana@example.pe";
                 Auth.full_name := "Ana Quispe";
                 Auth.user_type := "technician";
                 Auth.is_verified := true; Auth.is_active := true |} ]
    /\ Auth.is_active a = true
    /\ Auth.get [ ("userId", Auth.Num 7); ("email", Auth.Str "ana@example.pe");
                  ("userType", Auth.Str "technician");
                  ("fullName", Auth.Str "Ana Quispe");
                  ("isVerified", Auth.Bool true) ] "userId"
       = Auth.Num (Auth.id a)
    /\ Auth.get [ ("userId", Auth.Num 7); ("email", Auth.Str "ana@example.pe");
                  ("userType", Auth.Str "technician");
                  ("fullName", Auth.Str "Ana Quispe");
                  ("isVerified", Auth.Bool true) ] "userType"
       = Auth.Str (Auth.user_type a).
Proof.
  exact (authenticated_user_is_an_active_account
           (fun _ => Auth.Decoded 7)
           [ {| Auth.id := 7; Auth.email := "ana@example.pe";
                Auth.full_name := "Ana Quispe";
                Auth.user_type := "technician";
                Auth.is_verified := true; Auth.is_active := true |} ]
           false (Some "Bearer abc") _ eq_refl).
Defined.

(** X23. [requireRole] never lets through a user that [authenticateToken]
    has authenticated: the one writes the role under [userType], the other
    reads [user_type], so for every list of role names the answer is
    [403 Acceso denegado]. *)
Theorem requireRole_denies_every_authenticated_user verify accounts fault
  authHeader user roles :
  Auth.authenticateToken verify accounts fault authHeader = Auth.Next user ->
  Auth.requireRole roles (Some user) = Some Auth.access_denied.
Proof.
  unfold Auth.authenticateToken.
  destruct (Auth.token authHeader) as [tok|]; [|discriminate].
  destruct (negb (truthy (Some tok))); [discriminate|].
  destruct (verify tok) as [uid| | |]; try discriminate.
  destruct fault; [discriminate|].
  destruct (filter _ accounts) as [|a rest]; [discriminate|].
  intros H. injection H as <-. reflexivity.
Qed.

Lemma requireRole_denies_every_authenticated_user_witness :
  Auth.requireRole ["technician"; "company"]
    (Some [ ("userId", Auth.Num 7); ("email", Auth.Str "ana@example.pe");
            ("userType", Auth.Str "technician");
            ("fullName", Auth.Str "Ana Quispe");
            ("isVerified", Auth.Bool true) ])
  = Some Auth.access_denied.
Proof.
  exact (requireRole_denies_every_authenticated_user
           (fun _ => Auth.Decoded 7)
           [ {| Auth.id := 7; Auth.email := "ana@example.pe";
                Auth.full_name := "Ana Quispe";
                Auth.user_type := "technician";
                Auth.is_verified := true; Auth.is_active := true |} ]
           false (Some "Bearer abc") _ ["technician"; "company"] eq_refl).
Defined.
